(** * emotion_transformer: the Lightning training module (02_lightning.ipynb)

    A shallow embedding of the exported cells of [02_lightning.ipynb]
    (module [emotion_transformer.core]) and of the generated [main.py]:
    the [EmotionModel] Lightning module, the argument parser built by
    [get_args] and [EmotionModel.add_model_specific_args], the training
    function [main] and the command-line dispatch of [main.py].

    Python dictionaries holding tensors are finite maps ([gmap string T]);
    the parsed argument namespace is an ordered association list, because
    argparse fills it in declaration order.  Exceptions are values of
    [exn], threaded through an error monad. *)

From Stdlib Require Import QArith.
From stdpp Require Import base option list strings gmap fin_maps numbers.

Set Default Proof Using "Type".
#[local] Set Warnings "-clear-no-such-hyp".

(** ** Python runtime *)

(** The exceptions that the embedded code can raise. *)
Inductive exn : Type :=
| NameError (name : string)
| AttributeError (attr : string)
| KeyError                                  (* which key: not recorded, see [dict_getitem] *)
| IndexError
| TypeError (msg : string)
| TypeError_keyword (callee keyword : string)   (* TypeError: [callee]() got an unexpected
                                                  keyword argument '[keyword]' *)
| TypeError_missing (callee param : string)     (* TypeError: [callee]() missing 1 required
                                                  positional argument: '[param]' *)
| ValueError (msg : string)
| ArgumentError (option_string : string)   (* argparse: conflicting option string *)
| SystemExit (code : Z)                    (* argparse: [parser.error] exits with status 2 *)
| RuntimeError (fn_name attr : string)     (* [pl.data_loader]: "fn_name: An AttributeError
                                              was encountered: ..." for a missing [attr] *)
| Unmodelled (input : string).             (* no exception of the program: the input lies
                                              outside what this embedding covers *)

Inductive result (A : Type) : Type :=
| Ok (a : A)
| Raise (e : exn).
Arguments Ok {A} a.
Arguments Raise {A} e.

Global Instance result_ret : MRet result := λ A a, Ok a.
Global Instance result_bind : MBind result := λ A B f r,
  match r with
  | Ok a => f a
  | Raise e => Raise e
  end.

(** Values that appear as attributes of the parsed namespace. Floats are the
    decimal numbers their literals denote, kept in lowest terms. *)
Inductive pyval : Type :=
| VNone
| VBool (b : bool)
| VInt (n : Z)
| VFloat (q : Q)
| VStr (s : string)
| VMethod (name : string).   (* a bound method of the parser *)

(** [m / 10^e] in lowest terms: the value of a decimal literal. *)
Definition decimal (m : Z) (e : nat) : Q := Qred (m # Z.to_pos (10 ^ Z.of_nat e)).

(** The number a value stands for in a comparison, if it is one. *)
Definition as_number (v : pyval) : option Q :=
  match v with
  | VBool b => Some (inject_Z (if b then 1 else 0))
  | VInt n => Some (inject_Z n)
  | VFloat q => Some q
  | _ => None
  end.

(** [a == b] *)
Definition py_eq (a b : pyval) : bool :=
  match as_number a, as_number b with
  | Some x, Some y => Qeq_bool x y
  | None, None =>
      match a, b with
      | VNone, VNone => true
      | VStr x, VStr y => String.eqb x y
      | VMethod x, VMethod y => String.eqb x y
      | _, _ => false
      end
  | _, _ => false
  end.

(** [list(range(v))] *)
Definition py_list_range (v : pyval) : result (list Z) :=
  match v with
  | VInt n => Ok (Z.of_nat <$> seq 0 (Z.to_nat n))
  | VBool b => Ok (Z.of_nat <$> seq 0 (if b then 1 else 0))
  | _ => Raise (TypeError "object cannot be interpreted as an integer")
  end.

(** Truth value of [v] in a condition. *)
Definition truthy (v : pyval) : bool :=
  match v with
  | VNone => false
  | VBool b => b
  | VInt n => negb (Z.eqb n 0)
  | VFloat q => negb (Qeq_bool q 0)
  | VStr s => negb (String.eqb s "")
  | VMethod _ => true
  end.

(** [v is not None] *)
Definition is_not_None (v : pyval) : bool :=
  match v with
  | VNone => false
  | _ => true
  end.

(** [os.path.join(a, b)] on POSIX paths. *)
Definition ends_with_slash (s : string) : bool :=
  match list.last (String.list_ascii_of_string s) with
  | Some c => Ascii.eqb c (Ascii.ascii_of_nat 47)   (* "/" *)
  | None => false
  end.

Definition os_path_join (a b : string) : string :=
  if String.prefix "/" b then b
  else if String.eqb a "" || ends_with_slash a then a +:+ b
  else a +:+ "/" +:+ b.

(** *** Namespaces: objects with named attributes *)

Abbreviation namespace := (list (string * pyval)).

Fixpoint ns_lookup (ns : namespace) (name : string) : option pyval :=
  match ns with
  | [] => None
  | (k, v) :: ns' => if String.eqb k name then Some v else ns_lookup ns' name
  end.

(** [ns.name] *)
Definition getattr (ns : namespace) (name : string) : result pyval :=
  match ns_lookup ns name with
  | Some v => Ok v
  | None => Raise (AttributeError name)
  end.

(** [setattr(ns, name, v)]: an existing attribute keeps its position. *)
Fixpoint setattr (ns : namespace) (name : string) (v : pyval) : namespace :=
  match ns with
  | [] => [(name, v)]
  | (k, w) :: ns' =>
      if String.eqb k name then (k, v) :: ns' else (k, w) :: setattr ns' name v
  end.

Definition hasattr (ns : namespace) (name : string) : bool :=
  bool_decide (is_Some (ns_lookup ns name)).

(** *** Conversions [int(s)] and [float(s)]

    Covered: an optional sign followed by decimal digits, for [float] with an
    optional fraction part.  Other spellings that Python accepts (exponents,
    underscores, surrounding blanks, [inf], [nan]) are outside this model:
    the conversion gives no value for them, and parsing then answers
    [Unmodelled] rather than an error of the program.  A float is kept as
    the decimal number its literal denotes, not as the double nearest to
    it. *)

Definition digit_of (c : Ascii.ascii) : option Z :=
  let n := Ascii.nat_of_ascii c in
  if (48 <=? n)%nat && (n <=? 57)%nat then Some (Z.of_nat (n - 48)) else None.

Fixpoint digits_value (acc : Z) (s : string) : option Z :=
  match s with
  | EmptyString => Some acc
  | String c s' =>
      match digit_of c with
      | Some d => digits_value (10 * acc + d) s'
      | None => None
      end
  end.

Definition all_digits (s : string) : bool :=
  bool_decide (is_Some (digits_value 0 s)).

Definition unsigned_int (s : string) : option Z :=
  if String.eqb s "" then None else digits_value 0 s.

Definition tail_of (s : string) : string :=
  match s with
  | EmptyString => EmptyString
  | String _ r => r
  end.

Definition split_sign (s : string) : bool * string :=
  if String.prefix "-" s then (true, tail_of s)
  else if String.prefix "+" s then (false, tail_of s)
  else (false, s).

Definition int_of_string (s : string) : option Z :=
  let '(neg, body) := split_sign s in
  n ← unsigned_int body;
  Some (if neg then - n else n)%Z.

(** Position of the first ["."] in [s], if any. *)
Definition dot_index (s : string) : option nat := String.index 0 "." s.

Definition unsigned_float (s : string) : option Q :=
  match dot_index s with
  | None => n ← unsigned_int s; Some (inject_Z n)
  | Some i =>
      let ip := String.substring 0 i s in
      let fp := String.substring (S i) (String.length s - S i) s in
      if String.eqb ip "" && String.eqb fp "" then None
      else
        a ← digits_value 0 ip;
        b ← digits_value 0 fp;
        let e := String.length fp in
        Some (decimal (a * 10 ^ Z.of_nat e + b) e)
  end.

Definition float_of_string (s : string) : option Q :=
  let '(neg, body) := split_sign s in
  q ← unsigned_float body;
  Some (if neg then Qred (- q) else q).

(** ** argparse and test_tube's [HyperOptArgumentParser]

    The parser is a value: the declared actions in order, plus the search
    description that [opt_list] and [opt_range] record.  Help texts and
    metavars have no effect on parsing and are left out.  Command lines are
    parsed with exact option strings, as [--opt value] or [--opt=value].
    argparse's unique-prefix abbreviations, the [--] separator, test_tube's
    cluster options, stray positional tokens, option-like tokens with
    blanks and a value attached to [-h] are outside this model: for a
    command line that needs them parsing answers [Unmodelled], which is no
    outcome of the program.
    Whenever parsing answers a namespace or a [SystemExit], the command
    line lies within the model; it is called accepted when the answer is a
    namespace. *)

Inductive arg_type : Type := type_str | type_int | type_float.

Inductive arg_action : Type := store | store_true | help.

(** What the search may try for a tunable argument. *)
Inductive opt_spec : Type :=
| opt_list_spec (options : list pyval)
| opt_range_spec (low high : Q) (nb_samples : Z).

Record Action : Type := {
  option_strings : list string;
  dest : string;
  action : arg_action;
  type : arg_type;
  default : pyval;
  choices : option (list pyval)
}.

Record Parser : Type := {
  strategy : option string;                 (* [None]: the library's default *)
  actions : list Action;
  opt_args : list (string * (bool * opt_spec))   (* option string ↦ (tunable, values) *)
}.

Definition help_action : Action :=
  {| option_strings := ["-h"; "--help"]; dest := "help"; action := help;
     type := type_str; default := VNone; choices := None |}.

(** The parser that [HyperOptArgumentParser(strategy=..., parents=[...],
    add_help=...)] builds: [-h/--help] first, then the parents' actions. *)
Definition HyperOptArgumentParser
    (strategy : option string) (parents : list Parser) (add_help : bool) : Parser :=
  {| strategy := strategy;
     actions := (if add_help then [help_action] else []) ++ (parents ≫= actions);
     opt_args := [] |}.

(** The first option string, in the order in which the actions are added,
    that an earlier action has taken. *)
Fixpoint first_clash (seen : list string) (acts : list Action) : option string :=
  match acts with
  | [] => None
  | a :: acts' =>
      match filter (λ f, f ∈ seen) (option_strings a) with
      | f :: _ => Some f
      | [] => first_clash (seen ++ option_strings a) acts'
      end
  end.

(** The constructor call itself: copying a parent's action whose option
    string is already taken raises (conflict handler ['error']), so a parent
    with a help option of its own is refused when [add_help] is set. *)
Definition HyperOptArgumentParser_call
    (strategy : option string) (parents : list Parser) (add_help : bool)
    : result Parser :=
  let parser := HyperOptArgumentParser strategy parents add_help in
  match first_clash [] (actions parser) with
  | Some f => Raise (ArgumentError f)
  | None => Ok parser
  end.

Fixpoint lstrip_dashes (s : string) : string :=
  match s with
  | EmptyString => EmptyString
  | String c r => if String.prefix "-" s then lstrip_dashes r else s
  end.

Fixpoint replace_dash (s : string) : string :=
  match s with
  | EmptyString => EmptyString
  | String c r => (if String.prefix "-" s then "_" else String c EmptyString) +:+ replace_dash r
  end.

(** The attribute name argparse derives from the option strings: the first
    long option (else the first option), without its leading dashes and with
    inner dashes turned into underscores. *)
Definition infer_dest (flags : list string) : string :=
  let long := filter (λ f, String.prefix "--" f = true) flags in
  replace_dash (lstrip_dashes (from_option id (from_option id "" (head flags)) (head long))).

Definition has_option (p : Parser) (f : string) : bool :=
  existsb (λ a, bool_decide (f ∈ option_strings a)) (actions p).

(** [parser.add_argument(flags..., dest=, action=, type=, default=, choices=)].
    An option string that is already taken raises (conflict handler
    ['error']). *)
Definition add_argument (p : Parser) (flags : list string) (dest_kw : option string)
    (act : arg_action) (ty : arg_type) (dflt : pyval) (chs : option (list pyval))
    : result Parser :=
  match filter (λ f, has_option p f = true) flags with
  | f :: _ => Raise (ArgumentError f)
  | [] =>
      Ok {| strategy := strategy p;
            actions := actions p ++
              [ {| option_strings := flags;
                   dest := from_option id (infer_dest flags) dest_kw;
                   action := act; type := ty; default := dflt; choices := chs |} ];
            opt_args := opt_args p |}
  end.

Definition record_opt (p : Parser) (flags : list string) (tunable : bool) (o : opt_spec)
    : Parser :=
  {| strategy := strategy p; actions := actions p;
     opt_args := opt_args p ++ ((λ f, (f, (tunable, o))) <$> flags) |}.

(** [parser.opt_list(flags..., default=, type=, options=, tunable=)] *)
Definition opt_list (p : Parser) (flags : list string) (dflt : pyval) (ty : arg_type)
    (options : list pyval) (tunable : bool) : result Parser :=
  p' ← add_argument p flags None store ty dflt None;
  Ok (record_opt p' flags tunable (opt_list_spec options)).

(** [parser.opt_range(flags..., default=, type=, tunable=, low=, high=,
    nb_samples=, dest=)]: the search entry is recorded under the last option
    string only ([args[-1]]). *)
Definition opt_range (p : Parser) (flags : list string) (dflt : pyval) (ty : arg_type)
    (tunable : bool) (low high : Q) (nb_samples : Z) (dest_kw : option string)
    : result Parser :=
  p' ← add_argument p flags dest_kw store ty dflt None;
  Ok (record_opt p' (from_option (λ f, [f]) [] (list.last flags)) tunable
                 (opt_range_spec low high nb_samples)).

(** *** Parsing a command line *)

(** The namespace before any token is read: every action's default, in
    declaration order ([help] is suppressed). *)
Definition defaults_namespace (acts : list Action) : namespace :=
  foldl (λ ns a,
           match action a with
           | help => ns
           | _ => if hasattr ns (dest a) then ns else setattr ns (dest a) (default a)
           end) [] acts.

Definition find_action (acts : list Action) (opt : string) : option Action :=
  find (λ a, bool_decide (opt ∈ option_strings a)) acts.

(** The action a token selects by an option string written in full, with
    the value attached by [=] if any. *)
Definition resolve (acts : list Action) (tok : string) : option (Action * option string) :=
  match find_action acts tok with
  | Some a => Some (a, None)
  | None =>
      i ← String.index 0 "=" tok;
      a ← find_action acts (String.substring 0 i tok);
      Some (a, Some (String.substring (S i) (String.length tok - S i) tok))
  end.

(** argparse's test for a negative number: [-\d+] or [-\d*\.\d+]. *)
Definition is_negative_number (s : string) : bool :=
  String.prefix "-" s &&
  let body := tail_of s in
  match dot_index body with
  | None => bool_decide (is_Some (unsigned_int body))
  | Some i =>
      all_digits (String.substring 0 i body) &&
      bool_decide (is_Some (unsigned_int
        (String.substring (S i) (String.length body - S i) body)))
  end.

(** A token that can be the value of an option. *)
Definition is_argument (tok : string) : bool :=
  negb (String.prefix "-" tok) || is_negative_number tok.

Definition convert (ty : arg_type) (s : string) : option pyval :=
  match ty with
  | type_str => Some (VStr s)
  | type_int => VInt <$> int_of_string s
  | type_float => VFloat <$> float_of_string s
  end.

(** Convert with [type], then check [choices]; argparse reports a value
    outside the choices through [parser.error].  A string that the
    conversions of this model do not cover is [Unmodelled]. *)
Definition store_value (a : Action) (s : string) : result pyval :=
  match convert (type a) s with
  | None => Raise (Unmodelled s)
  | Some v =>
      match choices a with
      | Some cs => if existsb (py_eq v) cs then Ok v else Raise (SystemExit 2)
      | None => Ok v
      end
  end.

(** A token that argparse classifies without consulting abbreviations: a
    plain word, or an option string written in full. *)
Definition plain_token (acts : list Action) (tok : string) : bool :=
  negb (String.prefix "-" tok) || bool_decide (is_Some (resolve acts tok)).

(** The tokens are read from left to right.  argparse classifies all of
    them before it reads the first, and an ambiguous abbreviation anywhere
    stops it with an error; that only matters where reading ends early
    without an error, at [-h]. *)
Fixpoint parse_tokens (acts : list Action) (argv : list string) (ns : namespace)
    : result namespace :=
  match argv with
  | [] => Ok ns
  | tok :: rest =>
      match resolve acts tok with
      | None => Raise (Unmodelled tok)
      | Some (a, explicit) =>
          match action a with
          | help =>
              match explicit with
              | Some _ => Raise (Unmodelled tok)
              | None =>
                  if forallb (plain_token acts) rest then Raise (SystemExit 0)
                  else Raise (Unmodelled tok)
              end
          | store_true =>
              match explicit with
              | Some _ => Raise (SystemExit 2)
              | None => parse_tokens acts rest (setattr ns (dest a) (VBool true))
              end
          | store =>
              match explicit, rest with
              | Some s, _ =>
                  v ← store_value a s;
                  parse_tokens acts rest (setattr ns (dest a) v)
              | None, s :: rest' =>
                  if is_argument s then
                    v ← store_value a s;
                    parse_tokens acts rest' (setattr ns (dest a) v)
                  else if bool_decide (is_Some (resolve acts s))
                  then Raise (SystemExit 2)       (* an option where a value is due *)
                  else Raise (Unmodelled s)
              | None, [] => Raise (SystemExit 2)
              end
          end
      end
  end.

(** What test_tube adds to the parsed namespace: the cluster experiment
    number and the parser's search methods. *)
Definition test_tube_methods : namespace :=
  [ ("trials", VMethod "opt_trials");
    ("optimize_parallel", VMethod "optimize_parallel");
    ("optimize_parallel_gpu", VMethod "optimize_parallel_gpu");
    ("optimize_parallel_cpu", VMethod "optimize_parallel_cpu");
    ("generate_trials", VMethod "generate_trials");
    ("optimize_trials_parallel_gpu", VMethod "optimize_trials_parallel_gpu") ].

Definition attach_test_tube (ns : namespace) : namespace :=
  foldl (λ ns kv, setattr ns kv.1 kv.2)
        (if hasattr ns "hpc_exp_number" then ns else setattr ns "hpc_exp_number" VNone)
        test_tube_methods.

(** [parser.parse_args(args=argv)] *)
Definition parse_args (p : Parser) (argv : list string) : result namespace :=
  ns ← parse_tokens (actions p) argv (defaults_namespace (actions p));
  Ok (attach_test_tube ns).

(** ** The argument parser of the module *)

(** [EmotionModel.add_model_specific_args(parent_parser, root_dir)] *)
Definition add_model_specific_args (parent_parser : Parser) (root_dir : string)
    : result Parser :=
  parser ← HyperOptArgumentParser_call None [parent_parser] true;
  parser ← opt_list parser ["--bs"; "--batch_size"] (VInt 40) type_int
             [VInt 10; VInt 40; VInt 80] true;
  parser ← opt_list parser ["--max_seq_len"] (VInt 10) type_int
             [VInt 5; VInt 10; VInt 15] true;
  parser ← opt_list parser ["--projection_size"] (VInt 100) type_int
             [VInt 50; VInt 100; VInt 150] true;
  parser ← opt_list parser ["--dropout"] (VFloat (decimal 1 1)) type_float
             [VFloat (decimal 5 2); VFloat (decimal 1 1); VFloat (decimal 2 1)] true;
  parser ← opt_list parser ["--n_layers"] (VInt 1) type_int
             [VInt 1; VInt 2; VInt 3] true;
  parser ← opt_range parser ["--lr"; "--learning_rate"] (VFloat (decimal 2 5)) type_float
             true (decimal 1 5) (decimal 3 5) 4 (Some "lr");
  parser ← opt_list parser ["--layerwise_decay"] (VFloat (decimal 95 2)) type_float
             [VFloat (decimal 99 2); VFloat (decimal 95 2); VFloat (decimal 9 1)] true;
  parser ← add_argument parser ["--train_file"] None store type_str
             (VStr (os_path_join root_dir "data/clean_train.txt")) None;
  parser ← add_argument parser ["--val_file"] None store type_str
             (VStr (os_path_join root_dir "data/clean_val.txt")) None;
  parser ← add_argument parser ["--test_file"] None store type_str
             (VStr (os_path_join root_dir "data/clean_test.txt")) None;
  parser ← add_argument parser ["--epochs"] None store type_int (VInt 10) None;
  parser ← add_argument parser ["--seed"] None store type_int VNone None;
  Ok parser.

(** [get_args(model)]: [model] is the class whose static method
    [add_model_specific_args] extends the parser; [cwd] is what [os.getcwd()]
    returns. *)
Definition get_args (model : Parser → string → result Parser) (cwd : string)
    : result Parser :=
  parent_parser ← HyperOptArgumentParser_call (Some "random_search") [] false;
  let root_dir := cwd in
  parent_parser ← add_argument parent_parser ["--mode"] None store type_str
      (VStr "default") (Some [VStr "default"; VStr "hparams_search"]);
  parent_parser ← add_argument parent_parser ["--save-path"] None store type_str
      (VStr (os_path_join root_dir "logs")) None;
  parent_parser ← add_argument parent_parser ["--gpus"] None store type_int (VInt 0) None;
  parent_parser ← add_argument parent_parser ["--distributed-backend"] None store type_str
      (VStr "dp") (Some [VStr "dp"; VStr "ddp"; VStr "ddp2"]);
  parent_parser ← add_argument parent_parser ["--use_16bit"] (Some "use_16bit")
      store_true type_str (VBool false) None;
  (* debugging *)
  parent_parser ← add_argument parent_parser ["--fast_dev_run"] (Some "fast_dev_run")
      store_true type_str (VBool false) None;
  parent_parser ← add_argument parent_parser ["--track_grad_norm"] (Some "track_grad_norm")
      store_true type_str (VBool false) None;
  parent_parser ← add_argument parent_parser ["--overfit_on_subset"] None store type_float
      (VFloat (decimal 0 1)) None;
  parser ← model parent_parser root_dir;
  Ok parser.

(** ** Tensors and the imported parts of the package *)

(** The tensor operations the module applies; torch supplies them. *)
Class Tensor (T : Type) : Type := {
  tensor_of_int : Z → T;          (* a Python number meeting a tensor: [0 + t] *)
  tensor_add : T → T → T;         (* [a + b] *)
  tensor_div : T → Z → T;         (* [t / n] for a Python int [n] *)
  torch_sum : T → T;
  torch_mean : T → T;
  unsqueeze : T → Z → T
}.

(** What the module imports from [emotion_transformer.model] and
    [emotion_transformer.dataloader].  The two model classes are given by
    their constructor arguments followed by the arguments of a call.
    [dataloader] returns a torch [DataLoader] (neither [None] nor a list)
    or raises. *)
Class Imports (T : Type) : Type := {
  sentence_embeds_model : pyval → pyval → T → T → result T;
  context_classifier_model :
    pyval → pyval → gmap string Z → pyval → T → option T → result (list T);
  metrics : T → T → T → gmap string T;
  f1_score : T → T → T → gmap string T;
  DataLoader : Type;
  dataloader : pyval → pyval → pyval → gmap string Z → bool → result DataLoader
}.

(** [pl.callbacks.ModelCheckpoint(...)] and [pl.Trainer(...)], as the keyword
    arguments they are built with. *)
Record ModelCheckpoint : Type := {
  filepath : string;
  save_best_only : bool;
  verbose : bool;
  monitor : string;
  mode : string;
  prefix : string
}.

Record Trainer : Type := {
  default_save_path : pyval;
  gpus : pyval;
  distributed_backend : pyval;
  use_amp : pyval;
  checkpoint_callback : ModelCheckpoint;
  max_nb_epochs : pyval;
  weights_summary : string;
  fast_dev_run : pyval;
  track_grad_norm : Z;
  overfit_pct : pyval
}.

(** The flags Lightning sets on the module and its trainer:
    [self.trainer.use_dp], [self.trainer.use_ddp2] and [self.use_ddp]. *)
Record Lightning : Type := {
  trainer_use_dp : bool;
  trainer_use_ddp2 : bool;
  self_use_ddp : bool
}.

(** The names bound in the module [emotion_transformer.core]: its imports
    and its three definitions. *)
Definition core_globals : list string :=
  [ "logging"; "os"; "torch"; "pl"; "HyperOptArgumentParser"; "dataloader";
    "sentence_embeds_model"; "context_classifier_model"; "metrics"; "f1_score";
    "EmotionModel"; "get_args"; "main" ].

(** [a, b = t] *)
Definition unpack2 {A} (t : list A) : result (A * A) :=
  match t with
  | [a; b] => Ok (a, b)
  | [] => Raise (ValueError "not enough values to unpack (expected 2, got 0)")
  | [_] => Raise (ValueError "not enough values to unpack (expected 2, got 1)")
  | _ => Raise (ValueError "too many values to unpack (expected 2)")
  end.

(** [os.path.join(a, b)] for an attribute value [a]. *)
Definition py_path_join (a : pyval) (b : string) : result string :=
  match a with
  | VStr s => Ok (os_path_join s b)
  | _ => Raise (TypeError "expected str, bytes or os.PathLike object")
  end.

(** ** The Lightning module *)

Section Definitions.
Context {T : Type} `{!Tensor T} `{!Imports T}.

(** *** class EmotionModel *)

Record EmotionModel : Type := {
  self_hparams : namespace;
  self_emo_dict : gmap string Z;
  self_sentence_embeds_model : T → T → result T;
  self_context_classifier_model : T → option T → result (list T)
}.

(** [EmotionModel.__init__(self, hparams)] *)
Definition EmotionModel_init (hparams : namespace) : result EmotionModel :=
  let emo_dict : gmap string Z :=
    {[ "others" := 0%Z; "sad" := 1%Z; "angry" := 2%Z; "happy" := 3%Z ]} in
  projection_size ← getattr hparams "projection_size";
  dropout ← getattr hparams "dropout";
  let sentence_embeds := sentence_embeds_model projection_size dropout in
  projection_size ← getattr hparams "projection_size";
  n_layers ← getattr hparams "n_layers";
  dropout ← getattr hparams "dropout";
  let context_classifier :=
    context_classifier_model projection_size n_layers emo_dict dropout in
  Ok {| self_hparams := hparams;
        self_emo_dict := emo_dict;
        self_sentence_embeds_model := sentence_embeds;
        self_context_classifier_model := context_classifier |}.

(** [EmotionModel.forward(self, input_ids, attention_mask, labels=None)] *)
Definition forward (self : EmotionModel) (input_ids attention_mask : T)
    (labels : option T) : result (list T) :=
  sentence_embeds ← self_sentence_embeds_model self input_ids attention_mask;
  self_context_classifier_model self sentence_embeds labels.

(** An attribute of a dict read without calling it, such as [d.values]. *)
Record builtin_method : Type := {
  method_self : gmap string T;
  method_name : string
}.

Definition dict_methods : list string :=
  [ "clear"; "copy"; "fromkeys"; "get"; "items"; "keys"; "pop"; "popitem";
    "setdefault"; "update"; "values" ].

(** [d.name] for a dict [d] *)
Definition dict_getattr (d : gmap string T) (name : string) : result builtin_method :=
  if bool_decide (name ∈ dict_methods)
  then Ok {| method_self := d; method_name := name |}
  else Raise (AttributeError name).

(** [iter(m)] for a method object [m]: it is not iterable. *)
Definition iter_method {A} (m : builtin_method) : result (list A) :=
  Raise (TypeError "'builtin_function_or_method' object is not iterable").

(** [EmotionModel.validation_step(self, batch, batch_idx)] *)
Definition validation_step (pl : Lightning) (self : EmotionModel)
    (batch : T * T * T) (batch_idx : Z) : result (gmap string T) :=
  let '(input_ids, attention_mask, labels) := batch in
  out ← forward self input_ids attention_mask (Some labels);
  '(loss, logits) ← unpack2 out;
  let scores_dict := metrics loss logits labels in
  (* in DP mode (default) make sure if result is scalar, there's another dim
     in the beginning *)
  if trainer_use_dp pl || trainer_use_ddp2 pl then
    values ← dict_getattr scores_dict "values";
    values ← iter_method values;
    let scores := (λ score : T, unsqueeze score 0) <$> values in
    keys ← dict_getattr scores_dict "keys";
    keys ← iter_method keys;
    Ok (list_to_map (zip keys scores))
  else Ok scores_dict.

Definition is_count (metric_name : string) : bool :=
  bool_decide (metric_name ∈ ["tp"; "fp"; "fn"]).

(** [d[key]]. A finite map does not keep the order in which Python would
    walk through a dict, so when several keys are missing the model cannot
    tell which one is met first; [KeyError] therefore carries no key. *)
Definition dict_getitem (d : gmap string T) (key : string) : result T :=
  match d !! key with
  | Some v => Ok v
  | None => Raise KeyError
  end.

(** The inner loop of [validation_end]: [for output in outputs]. (In DP
    mode the source also prints the shape of every value.) *)
Fixpoint accumulate (pl : Lightning) (metric_name : string)
    (outputs : list (gmap string T)) (metric_total : T) : result T :=
  match outputs with
  | [] => Ok metric_total
  | output :: outputs' =>
      metric_value ← dict_getitem output metric_name;
      let metric_value :=
        if trainer_use_dp pl || trainer_use_ddp2 pl then
          if is_count metric_name then torch_sum metric_value
          else torch_mean metric_value
        else metric_value in
      accumulate pl metric_name outputs' (tensor_add metric_total metric_value)
  end.

(** The outer loop: [for metric_name in outputs[0].keys()]. *)
Fixpoint aggregate (pl : Lightning) (metric_names : list string)
    (outputs : list (gmap string T)) (tqdm_dict : gmap string T)
    : result (gmap string T) :=
  match metric_names with
  | [] => Ok tqdm_dict
  | metric_name :: metric_names' =>
      metric_total ← accumulate pl metric_name outputs (tensor_of_int 0);
      let v :=
        if is_count metric_name then metric_total
        else tensor_div metric_total (Z.of_nat (length outputs)) in
      aggregate pl metric_names' outputs (<[metric_name := v]> tqdm_dict)
  end.

(** The dictionary [validation_end] returns: three fixed keys. *)
Record validation_result : Type := {
  progress_bar : gmap string T;
  log : gmap string T;
  val_loss : T
}.

(** [EmotionModel.validation_end(self, outputs)] *)
Definition validation_end (pl : Lightning) (outputs : list (gmap string T))
    : result validation_result :=
  first ← match outputs !! 0%nat with
          | Some o => Ok o
          | None => Raise IndexError
          end;
  tqdm_dict ← aggregate pl (map_to_list first).*1 outputs ∅;
  tp ← dict_getitem tqdm_dict "tp";
  fp ← dict_getitem tqdm_dict "fp";
  fn ← dict_getitem tqdm_dict "fn";
  let prec_rec_f1 := f1_score tp fp fn in
  let tqdm_dict := prec_rec_f1 ∪ tqdm_dict in      (* tqdm_dict.update(prec_rec_f1) *)
  val_loss ← dict_getitem tqdm_dict "val_loss";
  Ok {| progress_bar := tqdm_dict; log := tqdm_dict; val_loss := val_loss |}.

(** *** The three dataloaders

    Each method carries the decorator [@pl.data_loader]: the loader is built
    on the first call and kept in an attribute of the module
    ([_lazy_train_dataloader] and so on); what [val_dataloader] and
    [test_dataloader] build is put into a one-element list; and an
    AttributeError raised while building is turned into a RuntimeError. *)

(** What a decorated method returns: the loader itself, or a list. *)
Inductive loaders : Type :=
| loader (dl : DataLoader)
| loader_list (dls : list DataLoader).

(** [pl.data_loader(fn)] called on a module whose attribute [_lazy_<fn>]
    holds [lazy]; the second component is the attribute afterwards. *)
Definition data_loader (fn_name : string) (fn : result DataLoader)
    (lazy : option loaders) : result loaders * option loaders :=
  match lazy with
  | Some value => (Ok value, lazy)
  | None =>
      match fn with
      | Ok value =>
          let value :=
            if bool_decide (fn_name ∈ ["test_dataloader"; "val_dataloader"])
            then loader_list [value] else loader value in
          (Ok value, Some value)
      | Raise (AttributeError attr) => (Raise (RuntimeError fn_name attr), None)
      | Raise e => (Raise e, None)
      end
  end.

Definition train_dataloader (pl : Lightning) (self : EmotionModel)
    : option loaders → result loaders * option loaders :=
  data_loader "train_dataloader"
    (train_file ← getattr (self_hparams self) "train_file";
     max_seq_len ← getattr (self_hparams self) "max_seq_len";
     bs ← getattr (self_hparams self) "bs";
     dataloader train_file max_seq_len bs (self_emo_dict self) (self_use_ddp pl)).

Definition val_dataloader (pl : Lightning) (self : EmotionModel)
    : option loaders → result loaders * option loaders :=
  data_loader "val_dataloader"
    (val_file ← getattr (self_hparams self) "val_file";
     max_seq_len ← getattr (self_hparams self) "max_seq_len";
     bs ← getattr (self_hparams self) "bs";
     dataloader val_file max_seq_len bs (self_emo_dict self) (self_use_ddp pl)).

Definition test_dataloader (pl : Lightning) (self : EmotionModel)
    : option loaders → result loaders * option loaders :=
  data_loader "test_dataloader"
    (test_file ← getattr (self_hparams self) "test_file";
     max_seq_len ← getattr (self_hparams self) "max_seq_len";
     bs ← getattr (self_hparams self) "bs";
     dataloader test_file max_seq_len bs (self_emo_dict self) (self_use_ddp pl)).
End Definitions.
Arguments EmotionModel T : clear implicits.
Arguments builtin_method T : clear implicits.
Arguments validation_result T : clear implicits.

(** ** Training: [main] and the script [main.py]

    What the code does to the world outside is recorded as a trace of
    events; [M] threads the trace and an exception. *)

Inductive event (T : Type) : Type :=
| random_seed (seed : pyval)                           (* random.seed(seed) *)
| torch_manual_seed (seed : pyval)                     (* torch.manual_seed(seed) *)
| cudnn_deterministic (b : bool)                       (* torch.backends.cudnn.deterministic = b *)
| trainer_fit (trainer : Trainer) (model : EmotionModel T).   (* trainer.fit(model) *)
Arguments random_seed {T} seed.
Arguments torch_manual_seed {T} seed.
Arguments cudnn_deterministic {T} b.
Arguments trainer_fit {T} trainer model.

Record M (T A : Type) : Type := Run {
  run : list (event T) → list (event T) * result A
}.
Arguments Run {T A} run.
Arguments run {T A} m trace.

Global Instance M_ret {T} : MRet (M T) := λ A a, Run (λ tr, (tr, Ok a)).
Global Instance M_bind {T} : MBind (M T) := λ A B f m,
  Run (λ tr, match run m tr with
             | (tr', Ok a) => run (f a) tr'
             | (tr', Raise e) => (tr', Raise e)
             end).

Definition lift {T A} (r : result A) : M T A := Run (λ tr, (tr, r)).
Definition emit {T} (e : event T) : M T () := Run (λ tr, (tr ++ [e], Ok ())).

(** Reading a module-level name of [emotion_transformer.core]. *)
Definition load_global {T} (name : string) : M T () :=
  lift (if bool_decide (name ∈ core_globals) then Ok () else Raise (NameError name)).

(** What pytorch_lightning does when [main] calls it: the two constructors
    [pl.callbacks.ModelCheckpoint(...)] and [pl.Trainer(...)], given by the
    keyword arguments, and [trainer.fit(model)].  Each of them returns or
    raises; what [fit] returns is not used. *)
Class PL (T : Type) : Type := {
  ModelCheckpoint_init : ModelCheckpoint → result ();
  Trainer_init : Trainer → result ();
  fit : Trainer → EmotionModel T → result pyval
}.

(** test_tube's two search drivers, as methods of the namespace that
    [parse_args] returned: [optimize_parallel_cpu(train_function, nb_trials,
    nb_workers=4)] and [optimize_parallel_gpu(train_function, gpu_ids,
    max_nb_trials=None)].  Each hands back one [[trial, result]] pair per
    trial. *)
Class TestTube (T : Type) : Type := {
  optimize_parallel_cpu :
    namespace → (namespace → M T pyval) → Z → Z → M T (list (namespace * pyval));
  optimize_parallel_gpu :
    namespace → (namespace → M T pyval) → list Z → option Z
    → M T (list (namespace * pyval))
}.

(** A value passed by keyword in the two calls of [main.py]. *)
Inductive argument : Type :=
| arg_int (n : Z)
| arg_ints (ns : list Z).

(** Binding the keyword arguments of a call of [callee] to its parameters:
    the first keyword that names no parameter raises TypeError. *)
Definition bind_keywords (callee : string) (params : list string)
    (keywords : list (string * argument)) : result (list (string * argument)) :=
  match filter (λ kw, kw.1 ∉ params) keywords with
  | (k, _) :: _ => Raise (TypeError_keyword callee k)
  | [] => Ok keywords
  end.

(** The value bound to a parameter, if any. *)
Definition keyword (bound : list (string * argument)) (param : string) : option argument :=
  snd <$> find (λ kw, String.eqb kw.1 param) bound.

Section Training.
Context {T : Type} `{!Tensor T} `{!Imports T} `{!PL T} `{!TestTube T}.

(** [main(hparams)] *)
Definition main (hparams : namespace) : M T pyval :=
  _ ← load_global "EmotionModel";
  model ← lift (EmotionModel_init hparams);
  seed ← lift (getattr hparams "seed");
  _ ← (if is_not_None seed then
         _ ← load_global "random";
         seed ← lift (getattr hparams "seed");
         _ ← emit (random_seed seed);
         _ ← load_global "torch";
         seed ← lift (getattr hparams "seed");
         _ ← emit (torch_manual_seed seed);
         _ ← load_global "torch";
         emit (cudnn_deterministic true)
       else mret ());
  _ ← load_global "pl";
  _ ← load_global "os";
  save_path ← lift (getattr hparams "save_path");
  filepath ← lift (py_path_join save_path "model_checkpoints");
  let checkpoint_callback :=
    {| filepath := filepath;
       save_best_only := true;
       verbose := true;
       monitor := "f1_score";
       mode := "max";
       prefix := "" |} in
  _ ← lift (ModelCheckpoint_init checkpoint_callback);
  _ ← load_global "pl";
  save_path ← lift (getattr hparams "save_path");
  gpus ← lift (getattr hparams "gpus");
  distributed_backend ← lift (getattr hparams "distributed_backend");
  use_16bit ← lift (getattr hparams "use_16bit");
  epochs ← lift (getattr hparams "epochs");
  fast_dev_run ← lift (getattr hparams "fast_dev_run");
  track_grad_norm ← lift (getattr hparams "track_grad_norm");
  overfit_on_subset ← lift (getattr hparams "overfit_on_subset");
  let trainer :=
    {| default_save_path := save_path;
       gpus := gpus;
       distributed_backend := distributed_backend;
       use_amp := use_16bit;
       checkpoint_callback := checkpoint_callback;
       max_nb_epochs := epochs;
       weights_summary := "top";
       fast_dev_run := fast_dev_run;
       track_grad_norm := (if truthy track_grad_norm then 2 else -1)%Z;
       overfit_pct := overfit_on_subset |} in
  _ ← lift (Trainer_init trainer);
  _ ← emit (trainer_fit trainer model);
  _ ← lift (fit trainer model);
  mret VNone.

(** Calling the search methods that test_tube attached to the namespace:
    [f(train, nb_trials=..., nb_workers=...)] and
    [f(train, nb_trials=..., gpus=...)].  The training function is given
    by position, the rest by keyword. *)
Definition call_cpu_search (f : pyval) (hparams : namespace)
    (train : namespace → M T pyval) (nb_trials nb_workers : Z)
    : M T (list (namespace * pyval)) :=
  match f with
  | VMethod "optimize_parallel_cpu" =>
      bound ← lift (bind_keywords "optimize_parallel_cpu"
                      ["train_function"; "nb_trials"; "nb_workers"]
                      [("nb_trials", arg_int nb_trials);
                       ("nb_workers", arg_int nb_workers)]);
      match keyword bound "nb_trials", keyword bound "nb_workers" with
      | Some (arg_int nb_trials), Some (arg_int nb_workers) =>
          optimize_parallel_cpu hparams train nb_trials nb_workers
      | Some (arg_int nb_trials), None =>
          optimize_parallel_cpu hparams train nb_trials 4
      | _, _ =>
          lift (Raise (TypeError_missing "optimize_parallel_cpu" "nb_trials"))
      end
  | _ => lift (Raise (TypeError "object is not callable"))
  end.

Definition call_gpu_search (f : pyval) (hparams : namespace)
    (train : namespace → M T pyval) (nb_trials : Z) (gpus : list Z)
    : M T (list (namespace * pyval)) :=
  match f with
  | VMethod "optimize_parallel_gpu" =>
      bound ← lift (bind_keywords "optimize_parallel_gpu"
                      ["train_function"; "gpu_ids"; "max_nb_trials"]
                      [("nb_trials", arg_int nb_trials); ("gpus", arg_ints gpus)]);
      match keyword bound "gpu_ids", keyword bound "max_nb_trials" with
      | Some (arg_ints gpu_ids), Some (arg_int max_nb_trials) =>
          optimize_parallel_gpu hparams train gpu_ids (Some max_nb_trials)
      | Some (arg_ints gpu_ids), None =>
          optimize_parallel_gpu hparams train gpu_ids None
      | _, _ =>
          lift (Raise (TypeError_missing "optimize_parallel_gpu" "gpu_ids"))
      end
  | _ => lift (Raise (TypeError "object is not callable"))
  end.

(** The body of [main.py] once the command line is parsed. *)
Definition main_py_body (hparams : namespace) : M T () :=
  mode ← lift (getattr hparams "mode");
  if py_eq mode (VStr "default") then
    _ ← main hparams;
    mret ()
  else
    mode ← lift (getattr hparams "mode");
    if py_eq mode (VStr "hparams_search") then
      gpus ← lift (getattr hparams "gpus");
      if py_eq gpus (VInt 0) then
        f ← lift (getattr hparams "optimize_parallel_cpu");
        _ ← call_cpu_search f hparams main 20 1;
        mret ()
      else
        f ← lift (getattr hparams "optimize_parallel_gpu");
        gpus ← lift (getattr hparams "gpus");
        gpus ← lift (py_list_range gpus);
        _ ← call_gpu_search f hparams main 20 gpus;
        mret ()
    else mret ().

(** [main.py], run in directory [cwd] with arguments [argv]. *)
Definition main_py (cwd : string) (argv : list string) : M T () :=
  parser ← lift (get_args add_model_specific_args cwd);
  hparams ← lift (parse_args parser argv);
  main_py_body hparams.
End Training.

(** ** A concrete instance

    Stand-ins for torch, for the imported functions, for Lightning and for
    test_tube, enough to run the definitions above on concrete inputs. *)

(** One-element tensors over exact rationals. The shape is not tracked, so
    [torch.sum], [torch.mean] and [unsqueeze] return the element. *)
#[global] Instance Q_tensor : Tensor Q :=
  {| tensor_of_int := inject_Z;
     tensor_add := λ a b, Qred (a + b);
     tensor_div := λ t n, Qred (t / inject_Z n);
     torch_sum := λ t, t;
     torch_mean := λ t, t;
     unsqueeze := λ t _, t |}.

(** Modelled from the spec: [f1_score] of [emotion_transformer.model], whose
    notebook is not among the sources; precision, recall and F1 from the
    accumulated true-positive, false-positive and false-negative counts,
    under the three names the recorded run shows. *)
Definition f1_score_Q (tp fp fn : Q) : gmap string Q :=
  let precision := (tp / (tp + fp))%Q in
  let recall := (tp / (tp + fn))%Q in
  {[ "precision" := Qred precision;
     "recall" := Qred recall;
     "f1_score" := Qred (2 * (precision * recall) / (precision + recall)) ]}.

(** A stand-in for [metrics]: the five per-step scores of one example that is
    either classified right or wrong. *)
Definition metrics_Q (loss logits labels : Q) : gmap string Q :=
  let hit := if Qeq_bool logits labels then 1%Q else 0%Q in
  {[ "val_loss" := loss; "val_acc" := hit;
     "tp" := hit; "fp" := Qred (1 - hit); "fn" := Qred (1 - hit) ]}.

(** Stand-ins for the two sub-models (a product, then a squared error next to
    the logits) and for [dataloader] (the tuple of its arguments). *)
#[global] Instance Q_imports : Imports Q :=
  {| sentence_embeds_model := λ projection_size dropout input_ids attention_mask,
       Ok (Qred (input_ids * attention_mask));
     context_classifier_model := λ projection_size n_layers emo_dict dropout
                                   sentence_embeds labels,
       match labels with
       | Some l => Ok [Qred ((sentence_embeds - l) * (sentence_embeds - l)); sentence_embeds]
       | None => Ok [sentence_embeds]
       end;
     metrics := metrics_Q;
     f1_score := f1_score_Q;
     DataLoader := pyval * pyval * pyval * gmap string Z * bool;
     dataloader := λ file max_seq_len bs emo_dict use_ddp,
       Ok (file, max_seq_len, bs, emo_dict, use_ddp) |}.

(** A Lightning on which every call returns, and a search driver that runs
    no trial.  They only serve to run [main] and [main.py] on concrete
    inputs; the statements below hold for every [PL] and every [TestTube]. *)
#[global] Instance Q_pl : PL Q :=
  {| ModelCheckpoint_init := λ _, Ok ();
     Trainer_init := λ _, Ok ();
     fit := λ _ _, Ok (VInt 1) |}.

#[global] Instance no_search {T} : TestTube T :=
  {| optimize_parallel_cpu := λ hparams train nb_trials nb_workers, mret [];
     optimize_parallel_gpu := λ hparams train gpu_ids max_nb_trials, mret [] |}.

(** ** What the specification says, in its own words *)

Section Spec.
Context {T : Type} `{!Tensor T}.

(** The per-step values of one metric. *)
Definition per_step (metric_name : string) (outputs : list (gmap string T)) : list T :=
  omap (λ output : gmap string T, output !! metric_name) outputs.

(** Their sum, added up from zero in step order. *)
Definition metric_sum (metric_name : string) (outputs : list (gmap string T)) : T :=
  foldl tensor_add (tensor_of_int 0) (per_step metric_name outputs).

(** Their arithmetic mean: the total divided by the number of outputs. *)
Definition metric_mean (metric_name : string) (outputs : list (gmap string T)) : T :=
  tensor_div (metric_sum metric_name outputs) (Z.of_nat (length outputs)).

(** The value [validation_end] stores for one metric. *)
Definition stored (metric_name : string) (outputs : list (gmap string T)) : T :=
  if is_count metric_name then metric_sum metric_name outputs
  else metric_mean metric_name outputs.
End Spec.

(** Neither [trainer.use_dp] nor [trainer.use_ddp2] is set. *)
Definition single_process (pl : Lightning) : Prop :=
  trainer_use_dp pl = false ∧ trainer_use_ddp2 pl = false.

(** The label mapping that [__init__] writes down. *)
Definition emo_dict_literal : gmap string Z :=
  {[ "others" := 0%Z; "sad" := 1%Z; "angry" := 2%Z; "happy" := 3%Z ]}.


(** The hyperparameter record of the specification: its fields and their
    defaults, for the directory the program runs in. *)
Definition spec_hyperparameters (root_dir : string) : namespace :=
  [ ("bs", VInt 40);
    ("max_seq_len", VInt 10);
    ("projection_size", VInt 100);
    ("dropout", VFloat (decimal 1 1));
    ("n_layers", VInt 1);
    ("lr", VFloat (decimal 2 5));
    ("layerwise_decay", VFloat (decimal 95 2));
    ("train_file", VStr (os_path_join root_dir "data/clean_train.txt"));
    ("val_file", VStr (os_path_join root_dir "data/clean_val.txt"));
    ("test_file", VStr (os_path_join root_dir "data/clean_test.txt"));
    ("epochs", VInt 10);
    ("seed", VNone) ].

(** The general command-line fields that [get_args] declares itself. *)
Definition cli_fields (root_dir : string) : namespace :=
  [ ("mode", VStr "default");
    ("save_path", VStr (os_path_join root_dir "logs"));
    ("gpus", VInt 0);
    ("distributed_backend", VStr "dp");
    ("use_16bit", VBool false);
    ("fast_dev_run", VBool false);
    ("track_grad_norm", VBool false);
    ("overfit_on_subset", VFloat (decimal 0 1)) ].


(** The parser of the program, and the namespace it yields for [argv]. *)
Definition cli_parse (cwd : string) (argv : list string) : result namespace :=
  parser ← get_args add_model_specific_args cwd;
  parse_args parser argv.


(** The namespace [cli_parse] yields, for use where it is known to exist. *)
Definition parsed (cwd : string) (argv : list string) : namespace :=
  match cli_parse cwd argv with
  | Ok ns => ns
  | Raise _ => []
  end.

(** The four flags of the command-line surface, as the specification lists
    them: device count, precision mode, distributed backend and mode. *)
Definition spec_cli_flags : list Action :=
  [ {| option_strings := ["--gpus"]; dest := "gpus"; action := store;
       type := type_int; default := VInt 0; choices := None |};
    {| option_strings := ["--use_16bit"]; dest := "use_16bit"; action := store_true;
       type := type_str; default := VBool false; choices := None |};
    {| option_strings := ["--distributed-backend"]; dest := "distributed_backend";
       action := store; type := type_str; default := VStr "dp";
       choices := Some [VStr "dp"; VStr "ddp"; VStr "ddp2"] |};
    {| option_strings := ["--mode"]; dest := "mode"; action := store;
       type := type_str; default := VStr "default";
       choices := Some [VStr "default"; VStr "hparams_search"] |} ].


(** C7 as worded: parsing with no overrides yields a record with exactly the
    hyperparameter fields, at their defaults. *)
Definition spec_exactly_hyperparameters (cwd : string) : Prop :=
  ∃ ns, cli_parse cwd [] = Ok ns ∧
        ∀ k, ns_lookup ns k = ns_lookup (spec_hyperparameters cwd) k.



(** Two step outputs of a validation epoch, and a batch. *)
Definition example_outputs : list (gmap string Q) :=
  [ metrics_Q (1 # 2) 1 1; metrics_Q (1 # 3) 1 0 ].

Definition no_flags : Lightning :=
  {| trainer_use_dp := false; trainer_use_ddp2 := false; self_use_ddp := false |}.

Definition dp_flags : Lightning :=
  {| trainer_use_dp := true; trainer_use_ddp2 := false; self_use_ddp := false |}.

Definition example_model : EmotionModel Q :=
  match EmotionModel_init (parsed "/r" []) with
  | Ok m => m
  | Raise _ =>
      {| self_hparams := []; self_emo_dict := ∅;
         self_sentence_embeds_model := λ _ _, Raise IndexError;
         self_context_classifier_model := λ _ _, Raise IndexError |}
  end.

(** ** What parsing can store *)

(** What reading one option may store under its [dest]. *)
Definition stores (a : Action) (v : pyval) : Prop :=
  match action a with
  | store => ∃ s, store_value a s = Ok v
  | store_true => v = VBool true
  | help => False
  end.

(** The two attributes [main.py] branches on. *)
Definition dispatchable (ns : namespace) : Prop :=
  (ns_lookup ns "mode" = Some (VStr "default")
   ∨ ns_lookup ns "mode" = Some (VStr "hparams_search"))
  ∧ ∃ g, ns_lookup ns "gpus" = Some (VInt g).

Definition action_eqb (x y : arg_action) : bool :=
  match x, y with
  | store, store | store_true, store_true | help, help => true
  | _, _ => false
  end.

Definition type_eqb (x y : arg_type) : bool :=
  match x, y with
  | type_str, type_str | type_int, type_int | type_float, type_float => true
  | _, _ => false
  end.

(** An action that writes [mode] stores a string out of choices that are all
    among the two modes, and one that writes [gpus] converts to an integer. *)
Definition guarded (a : Action) : bool :=
  if String.eqb (dest a) "mode" then
    action_eqb (action a) store && type_eqb (type a) type_str &&
    match choices a with
    | Some cs =>
        forallb (λ c, existsb (py_eq c) [VStr "default"; VStr "hparams_search"]) cs
    | None => false
    end
  else if String.eqb (dest a) "gpus" then
    action_eqb (action a) store && type_eqb (type a) type_int
  else true.

Definition recorded_cwd : string := "/home/julius/Documents/nbdev_venv/emotion_transformer".


(** The command line of the README. *)
Definition readme_argv : list string := ["--gpus=2"; "--use_16bit"; "--mode=hparams_search"].

(** The module built from the command line [--seed 42]. *)
Definition seeded_hparams : namespace := parsed "/r" ["--seed"; "42"].

Definition seeded_model : EmotionModel Q :=
  match EmotionModel_init seeded_hparams with
  | Ok m => m
  | Raise _ => example_model
  end.



(** ** The configuration the parser can produce *)

(** What a field of the configuration may hold. *)
Inductive field_kind : Type :=
| is_int
| is_float
| is_str
| is_bool
| is_int_or_None
| one_of (cs : list string).

(** Whether [v] is of kind [k]. *)
Definition has_kind (k : field_kind) (v : pyval) : bool :=
  match k, v with
  | is_int, VInt _ => true
  | is_float, VFloat _ => true
  | is_str, VStr _ => true
  | is_bool, VBool _ => true
  | is_int_or_None, (VInt _ | VNone) => true
  | one_of cs, VStr s => existsb (String.eqb s) cs
  | _, _ => false
  end.

(** The fields that the parser of the program declares, with what each can
    hold after parsing. *)
Definition hparams_schema : list (string * field_kind) :=
  [ ("mode", one_of ["default"; "hparams_search"]);
    ("save_path", is_str);
    ("gpus", is_int);
    ("distributed_backend", one_of ["dp"; "ddp"; "ddp2"]);
    ("use_16bit", is_bool);
    ("fast_dev_run", is_bool);
    ("track_grad_norm", is_bool);
    ("overfit_on_subset", is_float);
    ("bs", is_int);
    ("max_seq_len", is_int);
    ("projection_size", is_int);
    ("dropout", is_float);
    ("n_layers", is_int);
    ("lr", is_float);
    ("layerwise_decay", is_float);
    ("train_file", is_str);
    ("val_file", is_str);
    ("test_file", is_str);
    ("epochs", is_int);
    ("seed", is_int_or_None) ].

(** The kind of the field [name], if the parser declares it. *)
Definition schema_kind (name : string) : option field_kind :=
  snd <$> find (λ kv, String.eqb kv.1 name) hparams_schema.

(** Every field of the schema is present and holds a value of its kind. *)
Definition conforms (ns : namespace) : Prop :=
  ∀ name kind, schema_kind name = Some kind →
    ∃ v, ns_lookup ns name = Some v ∧ has_kind kind v = true.

(** An action writes a field of the schema and can only store values of that
    field's kind. *)
Definition action_fits (a : Action) : bool :=
  match action a with
  | help => true
  | store_true =>
      match schema_kind (dest a) with
      | Some is_bool => true
      | _ => false
      end
  | store =>
      match schema_kind (dest a), type a with
      | Some is_int, type_int | Some is_int_or_None, type_int
      | Some is_float, type_float | Some is_str, type_str => true
      | Some (one_of cs), type_str =>
          match choices a with
          | Some chs =>
              forallb (λ c, match c with
                            | VStr s => existsb (String.eqb s) cs
                            | _ => false
                            end) chs
          | None => false
          end
      | _, _ => false
      end
  end.

(** [conforms], as a test. *)
Definition conformsb (ns : namespace) : bool :=
  forallb (λ kv, match ns_lookup ns kv.1 with
                 | Some v => has_kind kv.2 v
                 | None => false
                 end) hparams_schema.

(** The attributes of a parsed namespace, in order. *)
Definition hparams_fields : list string :=
  hparams_schema.*1 ++ "hpc_exp_number" :: test_tube_methods.*1.

(** ** Options on the command line *)

(** The option strings that write the attribute [name]. *)
Definition flags_of (acts : list Action) (name : string) : list string :=
  filter (λ a, String.eqb (dest a) name = true) acts ≫= option_strings.

(** A token that selects one of [flags]: the option string itself, or the
    option string followed by [=] and a value. *)
Definition mentions (flags : list string) (tok : string) : bool :=
  existsb (λ f, String.eqb tok f || String.prefix (f +:+ "=") tok) flags.

(** An option string as argparse wants it: a dash followed by a character
    that starts no number. *)
Definition option_like (f : string) : bool :=
  match f with
  | String d (String c _) =>
      Ascii.eqb d (Ascii.ascii_of_nat 45) &&
      negb (bool_decide (is_Some (digit_of c))) &&
      negb (Ascii.eqb c (Ascii.ascii_of_nat 46))
  | _ => false
  end.

(** Option strings that cannot be taken for one another or for a value: all
    distinct, none containing [=], all option-like. *)
Definition unambiguous (acts : list Action) : bool :=
  bool_decide (NoDup (acts ≫= option_strings)) &&
  forallb (λ f, option_like f && bool_decide (String.index 0 "=" f = None))
          (acts ≫= option_strings).

(** A token that selects the option [--seed]. *)
Definition sets_seed (tok : string) : bool :=
  String.eqb tok "--seed" || String.prefix "--seed=" tok.

(** An action that writes [seed] converts its value to an integer. *)
Definition seed_guarded (a : Action) : bool :=
  if String.eqb (dest a) "seed" then
    action_eqb (action a) store && type_eqb (type a) type_int
  else true.

(** [name] holds a value that one of its own options stored. *)
Definition written (acts : list Action) (name : string) (o : option pyval) : Prop :=
  ∃ a v, a ∈ acts ∧ dest a = name ∧ stores a v ∧ o = Some v.

(** The tokens by which the option string [f] of action [a] stores [v]:
    [f] followed by a value, [f=value], or [f] alone for a switch. *)
Definition sets (a : Action) (f : string) (tokens : list string) (v : pyval) : Prop :=
  match action a with
  | store =>
      ∃ s, store_value a s = Ok v ∧
           (tokens = [f; s] ∧ is_argument s = true ∨ tokens = [f +:+ "=" +:+ s])
  | store_true => tokens = [f] ∧ v = VBool true
  | help => False
  end.

(** The option strings that [add_model_specific_args] declares, in order. *)
Definition model_option_strings : list string :=
  [ "--bs"; "--batch_size"; "--max_seq_len"; "--projection_size"; "--dropout";
    "--n_layers"; "--lr"; "--learning_rate"; "--layerwise_decay"; "--train_file";
    "--val_file"; "--test_file"; "--epochs"; "--seed" ].

(** A parser without arguments, as [HyperOptArgumentParser(add_help=False)]
    builds it. *)
Definition bare_parser : Parser := HyperOptArgumentParser None [] false.

(** The parser of the program in directory [cwd]. *)
Definition program_parser (cwd : string) : Parser :=
  match get_args add_model_specific_args cwd with
  | Ok parser => parser
  | Raise _ => bare_parser
  end.

(** The parser that [get_args] hands to [add_model_specific_args]: the
    general arguments alone. *)
Definition general_parser (cwd : string) : Parser :=
  match get_args (λ parent_parser _, Ok parent_parser) cwd with
  | Ok parser => parser
  | Raise _ => bare_parser
  end.


(** The action that [--epochs] declares. *)
Definition epochs_action : Action :=
  {| option_strings := ["--epochs"]; dest := "epochs"; action := store;
     type := type_int; default := VInt 10; choices := None |}.

(** ** What [validation_end] stores, in any mode *)

Section Reduce.
Context {T : Type} `{!Tensor T}.

(** What the loop of [validation_end] adds to the total for one step value:
    in DP mode the value's sum (counts) or mean (other metrics). *)
Definition step_value (pl : Lightning) (metric_name : string) (v : T) : T :=
  if trainer_use_dp pl || trainer_use_ddp2 pl then
    if is_count metric_name then torch_sum v else torch_mean v
  else v.

(** The total over the steps, and the entry stored for a metric. *)
Definition metric_total (pl : Lightning) (metric_name : string)
    (outputs : list (gmap string T)) : T :=
  foldl tensor_add (tensor_of_int 0) (step_value pl metric_name <$> per_step metric_name outputs).

Definition metric_entry (pl : Lightning) (metric_name : string)
    (outputs : list (gmap string T)) : T :=
  if is_count metric_name then metric_total pl metric_name outputs
  else tensor_div (metric_total pl metric_name outputs) (Z.of_nat (length outputs)).
End Reduce.

(** The aggregate of the example outputs in DP mode. *)
Definition dp_result : validation_result Q :=
  match validation_end dp_flags example_outputs with
  | Ok r => r
  | Raise _ => {| progress_bar := ∅; log := ∅; val_loss := 0%Q |}
  end.


(** * Properties *)

(** ** Namespaces *)

Lemma ns_lookup_setattr (ns : namespace) (k k' : string) (v : pyval) :
  ns_lookup (setattr ns k v) k' = if String.eqb k k' then Some v else ns_lookup ns k'.
Proof.
  induction ns as [|[k0 w] ns IH]; simpl.
  - done.
  - destruct (String.eqb k0 k) eqn:E0; simpl.
    + apply String.eqb_eq in E0 as ->. by destruct (String.eqb k k').
    + rewrite IH. destruct (String.eqb k k') eqn:E1; [|done].
      apply String.eqb_eq in E1 as <-. by rewrite E0.
Qed.

Lemma ns_lookup_setattr_ne (ns : namespace) (k k' : string) (v : pyval) :
  k ≠ k' → ns_lookup (setattr ns k v) k' = ns_lookup ns k'.
Proof.
  intros Hne. rewrite ns_lookup_setattr.
  destruct (String.eqb k k') eqn:E; [|done]. by apply String.eqb_eq in E.
Qed.

Lemma getattr_Ok (ns : namespace) (name : string) (v : pyval) :
  getattr ns name = Ok v ↔ ns_lookup ns name = Some v.
Proof. unfold getattr. destruct (ns_lookup ns name); naive_solver. Qed.

(** ** The command line *)

Lemma find_action_elem (acts : list Action) (opt : string) (a : Action) :
  find_action acts opt = Some a → a ∈ acts.
Proof.
  unfold find_action. intros [Hin _]%find_some. by apply list_elem_of_In.
Qed.

Lemma resolve_elem (acts : list Action) (tok : string) (a : Action) (explicit : option string) :
  resolve acts tok = Some (a, explicit) → a ∈ acts.
Proof.
  unfold resolve. destruct (find_action acts tok) as [a'|] eqn:Ha.
  - intros [= <- _]. by eapply find_action_elem.
  - destruct (String.index 0 "=" tok) as [i|]; simpl; [|done].
    intros (a' & Ha' & [= <- _])%bind_Some. by eapply find_action_elem.
Qed.

(** Parsing changes the namespace only by such stores, so whatever they
    preserve holds of the result. *)
Lemma parse_tokens_invariant (P : namespace → Prop) (acts : list Action) :
  (∀ ns a v, P ns → a ∈ acts → stores a v → P (setattr ns (dest a) v)) →
  ∀ argv ns ns', P ns → parse_tokens acts argv ns = Ok ns' → P ns'.
Proof.
  intros Hstep argv.
  remember (length argv) as n eqn:Hn. revert argv Hn.
  induction n as [n IH] using lt_wf_ind. intros argv -> ns ns' HP.
  destruct argv as [|tok rest]; simpl.
  { by intros [= <-]. }
  destruct (resolve acts tok) as [[a explicit]|] eqn:Hres; [|done].
  apply resolve_elem in Hres.
  destruct (action a) eqn:Hact.
  - (* store *)
    destruct explicit as [s|].
    + destruct (store_value a s) as [v|] eqn:Hv; simpl; [|done].
      eapply (IH (length rest)); [simpl; lia|done|].
      apply Hstep; [done..|]. unfold stores. rewrite Hact. by exists s.
    + destruct rest as [|s rest']; [done|].
      destruct (is_argument s); [|by destruct (bool_decide _)].
      destruct (store_value a s) as [v|] eqn:Hv; simpl; [|done].
      eapply (IH (length rest')); [simpl; lia|done|].
      apply Hstep; [done..|]. unfold stores. rewrite Hact. by exists s.
  - (* store_true *)
    destruct explicit; [done|].
    eapply (IH (length rest)); [simpl; lia|done|].
    apply Hstep; [done..|]. unfold stores. by rewrite Hact.
  - destruct explicit; [done|]. by destruct (forallb _ rest).
Qed.

Lemma py_eq_VStr (s : string) (c : pyval) : py_eq (VStr s) c = true → c = VStr s.
Proof.
  destruct c; simpl; try done. unfold py_eq. simpl.
  by intros ->%String.eqb_eq.
Qed.

Lemma guarded_stores (ns : namespace) (a : Action) (v : pyval) :
  guarded a = true → dispatchable ns → stores a v →
  dispatchable (setattr ns (dest a) v).
Proof.
  unfold guarded, dispatchable, stores. intros Hg [Hmode [g Hgpus]] Hst.
  rewrite !ns_lookup_setattr.
  destruct (String.eqb (dest a) "mode") eqn:Hm.
  - apply String.eqb_eq in Hm. rewrite Hm. simpl.
    destruct (action a); [|done..]. destruct (type a) eqn:Hty; [|done..].
    destruct (choices a) as [cs|] eqn:Hch; simpl in Hg; [|done].
    destruct Hst as [s Hs]. unfold store_value in Hs. rewrite Hty, Hch in Hs. simpl in Hs.
    destruct (existsb (py_eq (VStr s)) cs) eqn:Hex; [|done]. injection Hs as <-.
    apply existsb_exists in Hex as (c & Hc & ->%py_eq_VStr).
    rewrite forallb_forall in Hg. specialize (Hg _ Hc). simpl in Hg.
    unfold py_eq in Hg. simpl in Hg.
    split; [|by exists g].
    destruct (String.eqb s "default") eqn:Hs1.
    + apply String.eqb_eq in Hs1 as ->. by left.
    + destruct (String.eqb s "hparams_search") eqn:Hs2; [|done].
      apply String.eqb_eq in Hs2 as ->. by right.
  - split; [done|].
    destruct (String.eqb (dest a) "gpus") eqn:Hgp; [|by exists g].
    destruct (action a); [|done..]. destruct (type a) eqn:Hty; [done| |done].
    destruct Hst as [s Hs]. unfold store_value, convert in Hs. rewrite Hty in Hs.
    destruct (int_of_string s) as [n|]; simpl in Hs; [|done].
    exists n. destruct (choices a) as [cs|]; [|by injection Hs as <-].
    destruct (existsb _ cs); [|done]. by injection Hs as <-.
Qed.

Lemma attach_test_tube_lookup (ns : namespace) (k : string) :
  k ∉ "hpc_exp_number" :: test_tube_methods.*1 →
  ns_lookup (attach_test_tube ns) k = ns_lookup ns k.
Proof.
  intros Hk. unfold attach_test_tube, test_tube_methods in *. simpl in *.
  rewrite !not_elem_of_cons in Hk. destruct Hk as (H0&H1&H2&H3&H4&H5&H6&_).
  rewrite !ns_lookup_setattr_ne by congruence.
  destruct (hasattr ns "hpc_exp_number"); [done|].
  by rewrite ns_lookup_setattr_ne by congruence.
Qed.

Lemma attach_test_tube_methods (ns : namespace) :
  ns_lookup (attach_test_tube ns) "optimize_parallel_cpu"
    = Some (VMethod "optimize_parallel_cpu") ∧
  ns_lookup (attach_test_tube ns) "optimize_parallel_gpu"
    = Some (VMethod "optimize_parallel_gpu").
Proof.
  unfold attach_test_tube, test_tube_methods. simpl.
  by rewrite !ns_lookup_setattr.
Qed.

(** The parser of the program exists for every working directory, and all
    its actions are guarded. *)
Lemma get_args_guarded (cwd : string) :
  ∃ parser, get_args add_model_specific_args cwd = Ok parser ∧
            forallb guarded (actions parser) = true ∧
            dispatchable (defaults_namespace (actions parser)).
Proof.
  destruct (get_args add_model_specific_args cwd) as [parser|e] eqn:Hp;
    vm_compute in Hp; [|done].
  injection Hp as <-. eexists. split; [done|]. split; [by vm_compute|].
  split; [by left|]. by exists 0%Z.
Qed.

Lemma cli_parse_Ok (cwd : string) (argv : list string) (hparams : namespace) :
  cli_parse cwd argv = Ok hparams →
  ∃ parser, get_args add_model_specific_args cwd = Ok parser ∧
            parse_args parser argv = Ok hparams.
Proof.
  unfold cli_parse. generalize (get_args add_model_specific_args cwd).
  intros [parser|e]; [|done]. intros Hparse. by exists parser.
Qed.

(** Every namespace the program's parser returns has a mode among the two
    choices, an integer number of gpus, and test_tube's two search methods. *)
Lemma cli_parse_shape (cwd : string) (argv : list string) (hparams : namespace) :
  cli_parse cwd argv = Ok hparams →
  (∃ m, getattr hparams "mode" = Ok (VStr m) ∧ (m = "default" ∨ m = "hparams_search")) ∧
  (∃ g, getattr hparams "gpus" = Ok (VInt g)) ∧
  getattr hparams "optimize_parallel_cpu" = Ok (VMethod "optimize_parallel_cpu") ∧
  getattr hparams "optimize_parallel_gpu" = Ok (VMethod "optimize_parallel_gpu").
Proof.
  unfold cli_parse. destruct (get_args_guarded cwd) as (parser & -> & Hg & Hd). simpl.
  unfold parse_args.
  destruct (parse_tokens _ argv _) as [ns|] eqn:Hparse; simpl; [|done].
  intros [= <-].
  assert (Hns : dispatchable ns).
  { eapply (parse_tokens_invariant dispatchable); [|exact Hd|exact Hparse].
    intros ns0 a v Hns0 Ha Hst. apply guarded_stores; [|done..].
    rewrite forallb_forall in Hg. apply Hg. by apply list_elem_of_In. }
  destruct Hns as [Hmode [g Hgpus]].
  destruct (attach_test_tube_methods ns) as [Hcpu Hgpu].
  assert (Hfresh : ∀ k, k ∈ ["mode"; "gpus"] → k ∉ "hpc_exp_number" :: test_tube_methods.*1).
  { intros k Hk. vm_compute. set_solver. }
  split; [|split; [|split]].
  - destruct Hmode as [Hm|Hm]; [exists "default"|exists "hparams_search"];
      (split; [|tauto]); apply getattr_Ok;
      rewrite attach_test_tube_lookup; auto; apply Hfresh; set_solver.
  - exists g. apply getattr_Ok. rewrite attach_test_tube_lookup; [done|].
    apply Hfresh; set_solver.
  - by apply getattr_Ok.
  - by apply getattr_Ok.
Qed.

Section Properties.
Context {T : Type} `{!Tensor T} `{!Imports T} `{!PL T} `{!TestTube T}.
Implicit Types (pl : Lightning) (outputs : list (gmap string T)).

(** ** Aggregating the validation metrics *)

Lemma accumulate_single_process pl metric_name outputs acc :
  single_process pl →
  Forall (λ output : gmap string T, is_Some (output !! metric_name)) outputs →
  accumulate pl metric_name outputs acc
  = Ok (foldl tensor_add acc (per_step metric_name outputs)).
Proof.
  intros [Hdp Hddp2] Hall. revert acc.
  induction Hall as [|output outputs [v Hv] _ IH]; intros acc; simpl.
  - done.
  - unfold dict_getitem, per_step. simpl. rewrite Hv, Hdp, Hddp2. simpl.
    apply IH.
Qed.

Lemma aggregate_single_process pl metric_names outputs (tqdm_dict : gmap string T) :
  single_process pl →
  Forall (λ name, Forall (λ output : gmap string T, is_Some (output !! name)) outputs)
         metric_names →
  ∃ d : gmap string T,
    aggregate pl metric_names outputs tqdm_dict = Ok d ∧
    ∀ k, d !! k = if decide (k ∈ metric_names) then Some (stored k outputs)
                  else tqdm_dict !! k.
Proof.
  intros Hpl Hall. revert tqdm_dict.
  induction Hall as [|name names Hname _ IH]; intros tqdm_dict; simpl.
  - by exists tqdm_dict.
  - rewrite (accumulate_single_process pl name outputs _ Hpl Hname). simpl.
    destruct (IH (<[name := if is_count name
                             then foldl tensor_add (tensor_of_int 0) (per_step name outputs)
                             else tensor_div
                                    (foldl tensor_add (tensor_of_int 0) (per_step name outputs))
                                    (Z.of_nat (length outputs))]> tqdm_dict))
      as (d & Hd & Hlook).
    exists d. split; [done|]. intros k. rewrite Hlook.
    destruct (decide (k = name)) as [->|Hne].
    + rewrite lookup_insert_eq, (decide_True (P := name ∈ name :: names))
        by apply list_elem_of_here.
      by destruct (decide (name ∈ names)).
    + rewrite lookup_insert_ne by done.
      destruct (decide (k ∈ names)).
      * by rewrite decide_True by by apply list_elem_of_further.
      * rewrite decide_False; [done|]. rewrite elem_of_cons. tauto.
Qed.

Lemma elem_of_keys (m : gmap string T) (k : string) :
  k ∈ (map_to_list m).*1 ↔ k ∈ dom m.
Proof.
  rewrite elem_of_dom, list_elem_of_fmap. split.
  - intros ([k' v] & -> & Hin). apply elem_of_map_to_list in Hin. by exists v.
  - intros [v Hv]. exists (k, v). split; [done|]. by apply elem_of_map_to_list.
Qed.

Lemma stored_count k outputs : k ∈ ["tp"; "fp"; "fn"] → stored k outputs = metric_sum k outputs.
Proof. intros Hk. unfold stored, is_count. by rewrite bool_decide_eq_true_2. Qed.

Lemma stored_other k outputs : k ∉ ["tp"; "fp"; "fn"] → stored k outputs = metric_mean k outputs.
Proof. intros Hk. unfold stored, is_count. by rewrite bool_decide_eq_false_2. Qed.

(** C1. In single-process mode, for a non-empty list of step outputs that
    all report the metrics of the first one ('tp', 'fp', 'fn' and 'val_loss'
    among them), [validation_end] returns the aggregated dictionary under
    'progress_bar' and 'log': its 'tp', 'fp' and 'fn' entries are the sums
    of the per-step values, every other metric of the steps is the mean of
    its per-step values (the total divided by the number of outputs), and
    the entries of [f1_score], applied to the summed tp, fp and fn, are
    added under their own names; 'val_loss' is also returned at top level. *)
Theorem validation_end_single_process pl outputs (first : gmap string T) :
  single_process pl →
  head outputs = Some first →
  Forall (λ output : gmap string T, dom first ⊆ dom output) outputs →
  Forall (λ k, k ∈ dom first) ["tp"; "fp"; "fn"; "val_loss"] →
  let prec_rec_f1 :=
    f1_score (metric_sum "tp" outputs) (metric_sum "fp" outputs)
             (metric_sum "fn" outputs) in
  dom prec_rec_f1 ## dom first →
  ∃ tqdm_dict : gmap string T,
    validation_end pl outputs
    = Ok {| progress_bar := tqdm_dict; log := tqdm_dict;
            val_loss := metric_mean "val_loss" outputs |} ∧
    (∀ k, k ∈ ["tp"; "fp"; "fn"] → tqdm_dict !! k = Some (metric_sum k outputs)) ∧
    (∀ k, k ∈ dom first → k ∉ ["tp"; "fp"; "fn"] →
          tqdm_dict !! k = Some (metric_mean k outputs)) ∧
    (∀ k, k ∈ dom prec_rec_f1 → tqdm_dict !! k = prec_rec_f1 !! k) ∧
    dom tqdm_dict = dom first ∪ dom prec_rec_f1.
Proof.
  intros Hpl Hhead Hsame Hkeys prf Hnew.
  destruct outputs as [|o outputs']; simplify_eq/=.
  (* every key of the first output is present in every output *)
  assert (Hall : Forall (λ name, Forall (λ output : gmap string T, is_Some (output !! name))
                                        (first :: outputs'))
                        (map_to_list first).*1).
  { apply list.Forall_forall. intros k Hk%elem_of_keys.
    eapply Forall_impl; [|exact Hsame]. intros output Hsub. simpl in Hsub.
    apply elem_of_dom. set_solver. }
  destruct (aggregate_single_process pl _ (first :: outputs') ∅ Hpl Hall)
    as (d & Hd & Hlook).
  assert (Hd_in : ∀ k, k ∈ dom first → d !! k = Some (stored k (first :: outputs'))).
  { intros k Hk. rewrite Hlook. by rewrite decide_True by by apply elem_of_keys. }
  assert (Hd_out : ∀ k, k ∉ dom first → d !! k = None).
  { intros k Hk. rewrite Hlook. rewrite decide_False by by rewrite elem_of_keys.
    apply lookup_empty. }
  apply list.Forall_cons in Hkeys as [Htp Hkeys]. apply list.Forall_cons in Hkeys as [Hfp Hkeys].
  apply list.Forall_cons in Hkeys as [Hfn Hkeys]. apply list.Forall_cons in Hkeys as [Hvl _].
  assert (Hprf_none : ∀ k, k ∈ dom first → prf !! k = None).
  { intros k Hk. apply not_elem_of_dom. set_solver. }
  exists (prf ∪ d). split; [|split; [|split; [|split]]].
  - unfold validation_end. simpl. rewrite Hd. simpl. unfold dict_getitem.
    rewrite (Hd_in "tp" Htp), (Hd_in "fp" Hfp), (Hd_in "fn" Hfn). simpl.
    rewrite !stored_count by set_solver. fold prf.
    rewrite (lookup_union_r prf d "val_loss") by auto.
    rewrite (Hd_in "val_loss" Hvl). simpl.
    by rewrite stored_other by set_solver.
  - intros k Hk. assert (k ∈ dom first) by set_solver.
    rewrite lookup_union_r by auto. rewrite Hd_in by done. by rewrite stored_count.
  - intros k Hk Hnc. rewrite lookup_union_r by auto. rewrite Hd_in by done.
    by rewrite stored_other.
  - intros k Hk. apply lookup_union_l. apply Hd_out. set_solver.
  - rewrite dom_union_L. apply set_eq. intros k. rewrite !elem_of_union, !elem_of_dom.
    destruct (decide (k ∈ dom first)) as [Hin|Hnin].
    + rewrite Hd_in by done. apply elem_of_dom in Hin. naive_solver.
    + rewrite Hd_out by done. apply not_elem_of_dom in Hnin. rewrite Hnin.
      split; [intros [|[? ?]]|intros [[? ?]|]]; naive_solver.
Qed.

(** ** The forward pass and the validation step *)

(** C9. Once the forward pass has produced a loss and logits,
    [validation_step] returns the score dictionary of [metrics] exactly when
    neither [trainer.use_dp] nor [trainer.use_ddp2] is set; when one of
    them is set it raises a TypeError, because it iterates over the method
    [scores_dict.values] itself. *)
Theorem validation_step_outcome pl (self : EmotionModel T)
    (input_ids attention_mask labels loss logits : T) (batch_idx : Z) :
  forward self input_ids attention_mask (Some labels) = Ok [loss; logits] →
  validation_step pl self (input_ids, attention_mask, labels) batch_idx
  = if trainer_use_dp pl || trainer_use_ddp2 pl
    then Raise (TypeError "'builtin_function_or_method' object is not iterable")
    else Ok (metrics loss logits labels).
Proof.
  intros Hfwd. unfold validation_step. rewrite Hfwd. simpl.
  by destruct (trainer_use_dp pl), (trainer_use_ddp2 pl).
Qed.

(** ** Construction of the module, label mapping and dataloaders *)

Lemma EmotionModel_init_Ok hparams (self : EmotionModel T) :
  EmotionModel_init hparams = Ok self →
  ∃ projection_size n_layers dropout,
    getattr hparams "projection_size" = Ok projection_size ∧
    getattr hparams "n_layers" = Ok n_layers ∧
    getattr hparams "dropout" = Ok dropout ∧
    self = {| self_hparams := hparams;
              self_emo_dict := emo_dict_literal;
              self_sentence_embeds_model :=
                sentence_embeds_model projection_size dropout;
              self_context_classifier_model :=
                context_classifier_model projection_size n_layers emo_dict_literal
                                         dropout |}.
Proof.
  unfold EmotionModel_init.
  destruct (getattr hparams "projection_size") as [ps|] eqn:Hps; [|done].
  destruct (getattr hparams "dropout") as [dr|] eqn:Hdr; [|done].
  destruct (getattr hparams "n_layers") as [nl|] eqn:Hnl; [|done].
  simpl. intros [= <-]. by exists ps, nl, dr.
Qed.


(** C5. [forward] is the composition of the two sub-models: the context
    classifier applied, together with the labels, to the sentence embeddings
    that the embedding model produces from [input_ids] and
    [attention_mask]; an exception of the embedding model passes through.
    For a module built by [__init__] the two sub-models are the imported
    ones, set up from [projection_size], [n_layers], [dropout] and the
    label mapping. *)
Theorem forward_composition (self : EmotionModel T) (input_ids attention_mask : T)
    (labels : option T) :
  forward self input_ids attention_mask labels
  = match self_sentence_embeds_model self input_ids attention_mask with
    | Ok sentence_embeds => self_context_classifier_model self sentence_embeds labels
    | Raise e => Raise e
    end ∧
  ∀ hparams, EmotionModel_init hparams = Ok self →
    ∃ projection_size n_layers dropout,
      getattr hparams "projection_size" = Ok projection_size ∧
      getattr hparams "n_layers" = Ok n_layers ∧
      getattr hparams "dropout" = Ok dropout ∧
      forward self input_ids attention_mask labels
      = (sentence_embeds ←
           sentence_embeds_model projection_size dropout input_ids attention_mask;
         context_classifier_model projection_size n_layers (self_emo_dict self) dropout
                                  sentence_embeds labels).
Proof.
  split; [done|].
  intros hparams (ps & nl & dr & Hps & Hnl & Hdr & ->)%EmotionModel_init_Ok.
  by exists ps, nl, dr.
Qed.

(** C10. The three dataloaders are built by the same call of [dataloader]:
    the same [max_seq_len], batch size, label mapping and [use_ddp] flag;
    only the file differs, [train_file], [val_file] and [test_file]
    respectively.  The decorator [pl.data_loader] hands the loader of
    [train_dataloader] on as it is and those of [val_dataloader] and
    [test_dataloader] in a one-element list. *)
Theorem dataloaders_differ_in_file_only pl (self : EmotionModel T)
    (max_seq_len bs : pyval) :
  getattr (self_hparams self) "max_seq_len" = Ok max_seq_len →
  getattr (self_hparams self) "bs" = Ok bs →
  let load file :=
    dataloader file max_seq_len bs (self_emo_dict self) (self_use_ddp pl) in
  (∀ lazy,
     train_dataloader pl self lazy
       = data_loader "train_dataloader"
           (file ← getattr (self_hparams self) "train_file"; load file) lazy ∧
     val_dataloader pl self lazy
       = data_loader "val_dataloader"
           (file ← getattr (self_hparams self) "val_file"; load file) lazy ∧
     test_dataloader pl self lazy
       = data_loader "test_dataloader"
           (file ← getattr (self_hparams self) "test_file"; load file) lazy) ∧
  ∀ train_file val_file test_file dl_train dl_val dl_test,
    getattr (self_hparams self) "train_file" = Ok train_file →
    getattr (self_hparams self) "val_file" = Ok val_file →
    getattr (self_hparams self) "test_file" = Ok test_file →
    load train_file = Ok dl_train →
    load val_file = Ok dl_val →
    load test_file = Ok dl_test →
    train_dataloader pl self None = (Ok (loader dl_train), Some (loader dl_train)) ∧
    val_dataloader pl self None
      = (Ok (loader_list [dl_val]), Some (loader_list [dl_val])) ∧
    test_dataloader pl self None
      = (Ok (loader_list [dl_test]), Some (loader_list [dl_test])).
Proof.
  intros Hmsl Hbs load.
  assert (Heq : ∀ lazy,
     train_dataloader pl self lazy
       = data_loader "train_dataloader"
           (file ← getattr (self_hparams self) "train_file"; load file) lazy ∧
     val_dataloader pl self lazy
       = data_loader "val_dataloader"
           (file ← getattr (self_hparams self) "val_file"; load file) lazy ∧
     test_dataloader pl self lazy
       = data_loader "test_dataloader"
           (file ← getattr (self_hparams self) "test_file"; load file) lazy).
  { intros lazy. unfold train_dataloader, val_dataloader, test_dataloader.
    rewrite Hmsl, Hbs. by repeat split. }
  split; [exact Heq|].
  intros train_file val_file test_file dl_train dl_val dl_test Htr Hval Hte Ltr Lval Lte.
  destruct (Heq None) as (-> & -> & ->).
  rewrite Htr, Hval, Hte. cbn. by rewrite Ltr, Lval, Lte.
Qed.


(** ** Running [main] and [main.py] *)

Lemma run_bind {A B} (m : M T A) (f : A → M T B) (tr : list (event T)) :
  run (m ≫= f) tr
  = match run m tr with
    | (tr', Ok a) => run (f a) tr'
    | (tr', Raise e) => (tr', Raise e)
    end.
Proof. done. Qed.

Lemma run_lift {A} (r : result A) (tr : list (event T)) : run (lift r) tr = (tr, r).
Proof. done. Qed.

Lemma run_bind_lift {A B} (r : result A) (f : A → M T B) (tr : list (event T)) :
  run (lift r ≫= f) tr
  = match r with
    | Ok a => run (f a) tr
    | Raise e => (tr, Raise e)
    end.
Proof. by destruct r. Qed.

Lemma run_load_global (name : string) (tr : list (event T)) :
  run (load_global name) tr
  = (tr, if bool_decide (name ∈ core_globals) then Ok () else Raise (NameError name)).
Proof. done. Qed.

Lemma run_emit (e : event T) (tr : list (event T)) : run (emit e) tr = (tr ++ [e], Ok ()).
Proof. done. Qed.

Lemma run_ret {A} (a : A) (tr : list (event T)) : run (mret a) tr = (tr, Ok a).
Proof. done. Qed.

Lemma core_globals_bound :
  Forall (λ name, bool_decide (name ∈ core_globals) = true)
         ["EmotionModel"; "torch"; "pl"; "os"].
Proof. repeat constructor. Qed.

Lemma random_unbound : bool_decide ("random" ∈ core_globals) = false.
Proof. done. Qed.

Lemma run_load_bound (name : string) (tr : list (event T)) :
  name ∈ ["EmotionModel"; "torch"; "pl"; "os"] →
  run (load_global name) tr = (tr, Ok ()).
Proof.
  intros Hname. rewrite run_load_global.
  pose proof core_globals_bound as Hb. rewrite list.Forall_forall in Hb.
  by rewrite (Hb _ Hname).
Qed.

(** C2. When the seed is set, [main] stops at [random.seed]: the name
    [random] is not bound in the module, so a NameError is raised after the
    model has been built and before anything is seeded or trained. *)
Theorem main_seeded_raises hparams (seed : pyval) (model : EmotionModel T)
    (tr : list (event T)) :
  EmotionModel_init hparams = Ok model →
  getattr hparams "seed" = Ok seed →
  seed ≠ VNone →
  run (main hparams) tr = (tr, Raise (NameError "random")).
Proof.
  intros Hinit Hseed Hne. unfold main.
  rewrite run_bind, run_load_bound by set_solver.
  rewrite run_bind, run_lift, Hinit.
  rewrite run_bind, run_lift, Hseed.
  rewrite run_bind.
  assert (is_not_None seed = true) as -> by by destruct seed.
  by rewrite run_bind, run_load_global, random_unbound.
Qed.

(** What a run of [main] does: it raises before it starts to train, or it
    has built the model, found no seed, configured the checkpoint callback
    and the trainer from [hparams], and called [fit] once. *)
Lemma main_run hparams (tr : list (event T)) :
  (∃ e, run (main hparams) tr = (tr, Raise e)) ∨
  ∃ (model : EmotionModel T) save_path gpus distributed_backend use_16bit epochs
    fast_dev_run track_grad_norm overfit_on_subset,
    let trainer :=
      {| default_save_path := VStr save_path;
         gpus := gpus;
         distributed_backend := distributed_backend;
         use_amp := use_16bit;
         checkpoint_callback :=
           {| filepath := os_path_join save_path "model_checkpoints";
              save_best_only := true;
              verbose := true;
              monitor := "f1_score";
              mode := "max";
              prefix := "" |};
         max_nb_epochs := epochs;
         weights_summary := "top";
         fast_dev_run := fast_dev_run;
         track_grad_norm := (if truthy track_grad_norm then 2 else -1)%Z;
         overfit_pct := overfit_on_subset |} in
    EmotionModel_init hparams = Ok model ∧
    getattr hparams "seed" = Ok VNone ∧
    getattr hparams "save_path" = Ok (VStr save_path) ∧
    getattr hparams "gpus" = Ok gpus ∧
    getattr hparams "distributed_backend" = Ok distributed_backend ∧
    getattr hparams "use_16bit" = Ok use_16bit ∧
    getattr hparams "epochs" = Ok epochs ∧
    getattr hparams "fast_dev_run" = Ok fast_dev_run ∧
    getattr hparams "track_grad_norm" = Ok track_grad_norm ∧
    getattr hparams "overfit_on_subset" = Ok overfit_on_subset ∧
    ModelCheckpoint_init (checkpoint_callback trainer) = Ok () ∧
    Trainer_init trainer = Ok () ∧
    run (main hparams) tr
    = (tr ++ [trainer_fit trainer model], _ ← fit trainer model; Ok VNone).
Proof.
  unfold main.
  rewrite run_bind, run_load_bound by set_solver.
  rewrite run_bind, run_lift.
  destruct (EmotionModel_init hparams) as [model|e]; [|left; by eexists].
  rewrite run_bind, run_lift.
  destruct (getattr hparams "seed") as [seed|e]; [|left; by eexists].
  rewrite run_bind.
  destruct seed; simpl is_not_None; cbv iota;
    try (left; rewrite run_bind, run_load_global, random_unbound; by eexists).
  rewrite run_ret.
  rewrite run_bind, run_load_bound by set_solver.
  rewrite run_bind, run_load_bound by set_solver.
  rewrite run_bind, run_lift.
  destruct (getattr hparams "save_path") as [save_path|e] eqn:Hsave; [|left; by eexists].
  rewrite run_bind, run_lift.
  destruct save_path as [| | | |save_path|]; simpl py_path_join; cbv iota;
    try (left; by eexists).
  rewrite run_bind, run_lift.
  match goal with
  | |- context [ModelCheckpoint_init ?c] =>
      destruct (ModelCheckpoint_init c) as [[]|e] eqn:Hcheckpoint; [|left; by eexists]
  end.
  rewrite run_bind, run_load_bound by set_solver.
  rewrite run_bind, run_lift. cbv iota.
  repeat (rewrite run_bind, run_lift;
          match goal with
          | |- context [getattr hparams ?k] =>
              destruct (getattr hparams k) eqn:?; [|left; by eexists]
          end).
  rewrite run_bind, run_lift.
  match goal with
  | |- context [Trainer_init ?t] =>
      destruct (Trainer_init t) as [[]|e] eqn:Htrainer; [|left; by eexists]
  end.
  rewrite run_bind, run_emit, run_bind, run_lift.
  right. eexists model, save_path, _, _, _, _, _, _, _. cbv zeta.
  do 10 (split; [done|]). split; [exact Hcheckpoint|]. split; [exact Htrainer|].
  by destruct (fit _ model).
Qed.

Lemma py_eq_VInt_0 (g : Z) : py_eq (VInt g) (VInt 0) = Z.eqb g 0.
Proof.
  unfold py_eq. simpl. destruct (Z.eqb_spec g 0) as [->|Hne]; [done|].
  apply not_true_is_false. rewrite Qeq_bool_iff, inject_Z_injective. done.
Qed.

Lemma py_eq_VStr_VStr (a b : string) : py_eq (VStr a) (VStr b) = String.eqb a b.
Proof. done. Qed.

(** The call [optimize_parallel_cpu(main, nb_trials=.., nb_workers=..)]
    binds its keywords and reaches the driver. *)
Lemma call_cpu_search_method hparams (train : namespace → M T pyval) (nb_trials nb_workers : Z)
    (tr : list (event T)) :
  run (call_cpu_search (VMethod "optimize_parallel_cpu") hparams train nb_trials nb_workers) tr
  = run (optimize_parallel_cpu hparams train nb_trials nb_workers) tr.
Proof. unfold call_cpu_search. by rewrite run_bind_lift. Qed.

(** The call [optimize_parallel_gpu(main, nb_trials=.., gpus=..)] names no
    parameter of the driver with its first keyword, so it raises before the
    driver runs. *)
Lemma call_gpu_search_method hparams (train : namespace → M T pyval) (nb_trials : Z)
    (gpus : list Z) (tr : list (event T)) :
  run (call_gpu_search (VMethod "optimize_parallel_gpu") hparams train nb_trials gpus) tr
  = (tr, Raise (TypeError_keyword "optimize_parallel_gpu" "nb_trials")).
Proof. unfold call_gpu_search. by rewrite run_bind_lift. Qed.

Lemma cli_flags_declared (cwd : string) :
  ∃ parser, get_args add_model_specific_args cwd = Ok parser ∧
     Forall (λ a, Forall (λ opt, find_action (actions parser) opt = Some a)
                         (option_strings a)) spec_cli_flags.
Proof.
  destruct (get_args add_model_specific_args cwd) as [parser|e] eqn:Hp;
    vm_compute in Hp; [|done].
  injection Hp as <-. eexists. split; [done|].
  repeat first [apply Forall_nil | apply List.Forall_cons]; by vm_compute.
Qed.

(** What [main.py] does on an accepted command line, by mode and number of
    gpus. *)
Lemma main_py_dispatch (cwd : string) argv hparams (m : string) (g : Z)
    (tr : list (event T)) :
  cli_parse cwd argv = Ok hparams →
  getattr hparams "mode" = Ok (VStr m) →
  getattr hparams "gpus" = Ok (VInt g) →
  run (main_py cwd argv) tr
  = if String.eqb m "default" then run (_ ← main hparams; mret ()) tr
    else if Z.eqb g 0 then
      run (_ ← optimize_parallel_cpu hparams main 20 1; mret ()) tr
    else (tr, Raise (TypeError_keyword "optimize_parallel_gpu" "nb_trials")).
Proof.
  intros Hparse Hm Hg.
  destruct (cli_parse_shape _ _ _ Hparse) as ((m' & Hm' & Hmode) & _ & Hcpu & Hgpu).
  assert (m' = m) as -> by congruence.
  apply cli_parse_Ok in Hparse as (parser & Hget & Hparse). unfold main_py.
  rewrite run_bind_lift, Hget. cbv iota beta. rewrite run_bind_lift, Hparse. cbv iota beta.
  unfold main_py_body.
  rewrite run_bind_lift, Hm. cbv iota beta. rewrite py_eq_VStr_VStr.
  destruct Hmode as [-> | ->].
  { change (String.eqb "default" "default") with true. by cbv iota. }
  change (String.eqb "hparams_search" "default") with false. cbv iota.
  rewrite run_bind_lift. cbv iota beta. rewrite py_eq_VStr_VStr.
  change (String.eqb "hparams_search" "hparams_search") with true. cbv iota.
  rewrite run_bind_lift, Hg. cbv iota beta. rewrite py_eq_VInt_0.
  destruct (Z.eqb g 0).
  + rewrite run_bind_lift, Hcpu. cbv iota beta.
    by rewrite !run_bind, call_cpu_search_method.
  + rewrite run_bind_lift, Hgpu. cbv iota beta.
    rewrite run_bind_lift. cbv iota beta.
    rewrite run_bind_lift. unfold py_list_range. cbv iota beta.
    by rewrite run_bind, call_gpu_search_method.
Qed.

End Properties.

(** ** The parsed configuration *)

(** C7, as amended. Parsing with no overrides yields one flat record: the
    general command-line fields of [get_args], then the twelve
    hyperparameters at their defaults (bs 40, max_seq_len 10, projection_size
    100, dropout 0.1, n_layers 1, lr 2e-5, layerwise_decay 0.95, the three
    file paths, epochs 10, seed None), then what test_tube attaches; the
    twelve hyperparameters are exactly what [add_model_specific_args]
    declares on top of its parent. *)
Theorem parse_defaults (cwd : string) :
  cli_parse cwd []
  = Ok (cli_fields cwd ++ spec_hyperparameters cwd
        ++ ("hpc_exp_number", VNone) :: test_tube_methods) ∧
  ∃ parser,
    add_model_specific_args (HyperOptArgumentParser None [] false) cwd = Ok parser ∧
    defaults_namespace (actions parser) = spec_hyperparameters cwd.
Proof.
  split.
  - by vm_compute.
  - destruct (add_model_specific_args _ cwd) as [parser|e] eqn:Hp;
      vm_compute in Hp; [|done].
    injection Hp as <-. eexists. split; [done|]. by vm_compute.
Qed.


(** * The theorems at concrete inputs *)

(** Over exact rationals the running total of the loop is the ordinary sum,
    and the stored mean is that sum divided by the number of outputs. *)
Lemma Q_running_total (values : list Q) (acc : Q) :
  (foldl tensor_add acc values == acc + fold_right Qplus 0 values)%Q.
Proof.
  revert acc. induction values as [|v values IH]; intros acc; simpl.
  - ring.
  - rewrite IH, Qred_correct. ring.
Qed.

Lemma Q_metric_sum_exact (metric_name : string) (outputs : list (gmap string Q)) :
  (metric_sum metric_name outputs == fold_right Qplus 0 (per_step metric_name outputs))%Q.
Proof. unfold metric_sum. rewrite Q_running_total. simpl. ring. Qed.

Lemma Q_metric_mean_exact (metric_name : string) (outputs : list (gmap string Q)) :
  (metric_mean metric_name outputs
   == fold_right Qplus 0 (per_step metric_name outputs) / inject_Z (Z.of_nat (length outputs)))%Q.
Proof.
  unfold metric_mean. simpl. by rewrite Qred_correct, Q_metric_sum_exact.
Qed.

(** The parser reproduces the namespace the notebook recorded. *)
Example parse_recorded :
  (parsed recorded_cwd []).*1
  = [ "mode"; "save_path"; "gpus"; "distributed_backend"; "use_16bit"; "fast_dev_run";
      "track_grad_norm"; "overfit_on_subset"; "bs"; "max_seq_len"; "projection_size";
      "dropout"; "n_layers"; "lr"; "layerwise_decay"; "train_file"; "val_file";
      "test_file"; "epochs"; "seed"; "hpc_exp_number"; "trials"; "optimize_parallel";
      "optimize_parallel_gpu"; "optimize_parallel_cpu"; "generate_trials";
      "optimize_trials_parallel_gpu" ].
Proof. by vm_compute. Qed.

Lemma validation_end_single_process_witness :
  let first := metrics_Q (1 # 2) 1 1 in
  let prec_rec_f1 :=
    f1_score (metric_sum "tp" example_outputs) (metric_sum "fp" example_outputs)
             (metric_sum "fn" example_outputs) in
  single_process no_flags ∧
  head example_outputs = Some first ∧
  Forall (λ output : gmap string Q, dom first ⊆ dom output) example_outputs ∧
  Forall (λ k, k ∈ dom first) ["tp"; "fp"; "fn"; "val_loss"] ∧
  dom prec_rec_f1 ## dom first ∧
  ∃ tqdm_dict : gmap string Q,
    validation_end no_flags example_outputs
    = Ok {| progress_bar := tqdm_dict; log := tqdm_dict;
            val_loss := metric_mean "val_loss" example_outputs |} ∧
    (∀ k, k ∈ ["tp"; "fp"; "fn"] → tqdm_dict !! k = Some (metric_sum k example_outputs)) ∧
    (∀ k, k ∈ dom first → k ∉ ["tp"; "fp"; "fn"] →
          tqdm_dict !! k = Some (metric_mean k example_outputs)) ∧
    (∀ k, k ∈ dom prec_rec_f1 → tqdm_dict !! k = prec_rec_f1 !! k) ∧
    dom tqdm_dict = dom first ∪ dom prec_rec_f1.
Proof.
  intros first prec_rec_f1.
  assert (H1 : single_process no_flags) by done.
  assert (H2 : head example_outputs = Some first) by done.
  assert (H3 : Forall (λ output : gmap string Q, dom first ⊆ dom output) example_outputs).
  { unfold example_outputs.
    repeat (apply List.Forall_cons; [apply (bool_decide_unpack _); by vm_compute|]).
    apply Forall_nil. }
  assert (H4 : Forall (λ k, k ∈ dom first) ["tp"; "fp"; "fn"; "val_loss"]).
  { repeat (apply List.Forall_cons; [apply (bool_decide_unpack _); by vm_compute|]).
    apply Forall_nil. }
  assert (H5 : dom prec_rec_f1 ## dom first).
  { apply (bool_decide_unpack _). by vm_compute. }
  repeat (split; [assumption|]).
  exact (validation_end_single_process no_flags example_outputs first H1 H2 H3 H4 H5).
Defined.

Lemma forward_composition_witness :
  EmotionModel_init (parsed "/r" []) = Ok example_model ∧
  ∃ projection_size n_layers dropout,
    getattr (parsed "/r" []) "projection_size" = Ok projection_size ∧
    getattr (parsed "/r" []) "n_layers" = Ok n_layers ∧
    getattr (parsed "/r" []) "dropout" = Ok dropout ∧
    forward example_model 1%Q 1%Q (Some 1%Q)
    = (sentence_embeds ← sentence_embeds_model projection_size dropout 1%Q 1%Q;
       context_classifier_model projection_size n_layers (self_emo_dict example_model)
                                dropout sentence_embeds (Some 1%Q)).
Proof.
  assert (Hinit : EmotionModel_init (parsed "/r" []) = Ok example_model) by by vm_compute.
  split; [exact Hinit|].
  exact (proj2 (forward_composition example_model 1%Q 1%Q (Some 1%Q)) (parsed "/r" []) Hinit).
Defined.

Lemma validation_step_outcome_witness :
  forward example_model 1%Q 1%Q (Some 1%Q) = Ok [0%Q; 1%Q] ∧
  validation_step dp_flags example_model (1%Q, 1%Q, 1%Q) 0%Z
  = if trainer_use_dp dp_flags || trainer_use_ddp2 dp_flags
    then Raise (TypeError "'builtin_function_or_method' object is not iterable")
    else Ok (metrics 0%Q 1%Q 1%Q).
Proof.
  assert (Hfwd : forward example_model 1%Q 1%Q (Some 1%Q) = Ok [0%Q; 1%Q])
    by by vm_compute.
  split; [exact Hfwd|].
  exact (validation_step_outcome dp_flags example_model
           1%Q 1%Q 1%Q 0%Q 1%Q 0%Z Hfwd).
Defined.

Lemma dataloaders_differ_in_file_only_witness :
  getattr (self_hparams example_model) "max_seq_len" = Ok (VInt 10) ∧
  getattr (self_hparams example_model) "bs" = Ok (VInt 40) ∧
  let load file :=
    dataloader file (VInt 10) (VInt 40) (self_emo_dict example_model)
               (self_use_ddp no_flags) in
  (∀ lazy,
     train_dataloader no_flags example_model lazy
       = data_loader "train_dataloader"
           (file ← getattr (self_hparams example_model) "train_file"; load file) lazy ∧
     val_dataloader no_flags example_model lazy
       = data_loader "val_dataloader"
           (file ← getattr (self_hparams example_model) "val_file"; load file) lazy ∧
     test_dataloader no_flags example_model lazy
       = data_loader "test_dataloader"
           (file ← getattr (self_hparams example_model) "test_file"; load file) lazy) ∧
  ∀ train_file val_file test_file dl_train dl_val dl_test,
    getattr (self_hparams example_model) "train_file" = Ok train_file →
    getattr (self_hparams example_model) "val_file" = Ok val_file →
    getattr (self_hparams example_model) "test_file" = Ok test_file →
    load train_file = Ok dl_train →
    load val_file = Ok dl_val →
    load test_file = Ok dl_test →
    train_dataloader no_flags example_model None
      = (Ok (loader dl_train), Some (loader dl_train)) ∧
    val_dataloader no_flags example_model None
      = (Ok (loader_list [dl_val]), Some (loader_list [dl_val])) ∧
    test_dataloader no_flags example_model None
      = (Ok (loader_list [dl_test]), Some (loader_list [dl_test])).
Proof.
  assert (Hmsl : getattr (self_hparams example_model) "max_seq_len" = Ok (VInt 10))
    by by vm_compute.
  assert (Hbs : getattr (self_hparams example_model) "bs" = Ok (VInt 40))
    by by vm_compute.
  split; [exact Hmsl|]. split; [exact Hbs|].
  exact (dataloaders_differ_in_file_only no_flags example_model
           (VInt 10) (VInt 40) Hmsl Hbs).
Defined.


Lemma main_seeded_raises_witness :
  cli_parse "/r" ["--seed"; "42"] = Ok seeded_hparams ∧
  EmotionModel_init seeded_hparams = Ok seeded_model ∧
  getattr seeded_hparams "seed" = Ok (VInt 42) ∧
  VInt 42 ≠ VNone ∧
  run (main seeded_hparams) ([] : list (event Q)) = ([], Raise (NameError "random")).
Proof.
  assert (Hinit : EmotionModel_init seeded_hparams = Ok seeded_model)
    by by vm_compute.
  assert (Hseed : getattr seeded_hparams "seed" = Ok (VInt 42)) by by vm_compute.
  assert (Hne : VInt 42 ≠ VNone) by done.
  split; [by vm_compute|]. split; [exact Hinit|]. split; [exact Hseed|]. split; [exact Hne|].
  exact (main_seeded_raises seeded_hparams (VInt 42) seeded_model [] Hinit
           Hseed Hne).
Defined.


(** ** Where the specification says more than the code does *)

(** C7 as worded fails: the record parsed from an empty command line also has
    the field [mode], which is not one of the hyperparameters. *)
Lemma parse_defaults_has_more_fields : ¬ spec_exactly_hyperparameters recorded_cwd.
Proof.
  intros (ns & Hns & Hfields). vm_compute in Hns. injection Hns as <-.
  specialize (Hfields "mode"). vm_compute in Hfields. discriminate Hfields.
Qed.



(** * Further properties *)

(** ** Every parsed configuration fits the schema *)

Lemma setattr_keys (ns : namespace) (k : string) (v : pyval) :
  is_Some (ns_lookup ns k) → (setattr ns k v).*1 = ns.*1.
Proof.
  induction ns as [|[k0 w] ns IH]; simpl.
  - by intros [? ?].
  - destruct (String.eqb k0 k) eqn:E; simpl; [done|].
    intros H. f_equal. by apply IH.
Qed.

Lemma stores_fits (a : Action) (v : pyval) (kind : field_kind) :
  action_fits a = true → stores a v → schema_kind (dest a) = Some kind →
  has_kind kind v = true.
Proof.
  unfold action_fits, stores. intros Hfit Hst Hk. rewrite Hk in Hfit.
  destruct (action a); [| |done].
  - destruct Hst as [s Hs]. unfold store_value in Hs.
    destruct (convert (type a) s) as [v0|] eqn:Hconv; [|done].
    assert (Hv : v = v0).
    { destruct (choices a) as [chs|]; [destruct (existsb _ chs)|]; congruence. }
    subst v0. unfold convert in Hconv.
    destruct kind, (type a); try done; simpl in Hconv;
      try (by injection Hconv as <-);
      try (by destruct (int_of_string s); simplify_eq/=);
      try (by destruct (float_of_string s); simplify_eq/=).
    injection Hconv as <-.
    destruct (choices a) as [chs|]; [|done].
    destruct (existsb (py_eq (VStr s)) chs) eqn:Hex; [|done].
    apply existsb_exists in Hex as (c & Hc & ->%py_eq_VStr).
    rewrite forallb_forall in Hfit. by apply (Hfit _ Hc).
  - subst v. by destruct kind.
Qed.

Lemma stores_in_schema (a : Action) (v : pyval) :
  action_fits a = true → stores a v → is_Some (schema_kind (dest a)).
Proof.
  unfold action_fits, stores.
  destruct (action a); [| |done]; by destruct (schema_kind (dest a)).
Qed.

Lemma conforms_setattr (ns : namespace) (a : Action) (v : pyval) :
  action_fits a = true → conforms ns → stores a v → conforms (setattr ns (dest a) v).
Proof.
  intros Hfit Hns Hst name kind Hk. rewrite ns_lookup_setattr.
  destruct (String.eqb (dest a) name) eqn:E; [|by apply Hns].
  apply String.eqb_eq in E. subst name. exists v. split; [done|].
  by eapply stores_fits.
Qed.

Lemma schema_kind_elem (name : string) (kind : field_kind) :
  schema_kind name = Some kind → (name, kind) ∈ hparams_schema.
Proof.
  unfold schema_kind. destruct (find _ hparams_schema) as [[n k]|] eqn:Hf; [|done].
  simpl. intros [= <-]. apply find_some in Hf as [Hin Heq]. simpl in Heq.
  apply String.eqb_eq in Heq as ->. by apply list_elem_of_In.
Qed.

Lemma conformsb_conforms (ns : namespace) : conformsb ns = true → conforms ns.
Proof.
  unfold conformsb. rewrite forallb_forall. intros Hall name kind Hk.
  apply schema_kind_elem, list_elem_of_In in Hk. specialize (Hall _ Hk). simpl in Hall.
  destruct (ns_lookup ns name) as [v|]; [|done]. by exists v.
Qed.

Lemma schema_names_fresh (name : string) (kind : field_kind) :
  schema_kind name = Some kind → name ∉ "hpc_exp_number" :: test_tube_methods.*1.
Proof.
  intros Hk%schema_kind_elem. apply (list_elem_of_fmap_2 fst) in Hk. simpl in Hk.
  revert Hk. generalize name. apply list.Forall_forall.
  repeat (apply List.Forall_cons; [apply (bool_decide_unpack _); by vm_compute|]).
  apply Forall_nil.
Qed.

Lemma get_args_fits (cwd : string) :
  ∃ parser, get_args add_model_specific_args cwd = Ok parser ∧
            forallb action_fits (actions parser) = true ∧
            conformsb (defaults_namespace (actions parser)) = true ∧
            (defaults_namespace (actions parser)).*1 = hparams_schema.*1.
Proof.
  destruct (get_args add_model_specific_args cwd) as [parser|e] eqn:Hp;
    vm_compute in Hp; [|done].
  injection Hp as <-. eexists. split; [done|]. split; [by vm_compute|].
  split; by vm_compute.
Qed.

Lemma ns_lookup_keys (ns : namespace) (k : string) :
  is_Some (ns_lookup ns k) ↔ k ∈ ns.*1.
Proof.
  induction ns as [|[k0 w] ns IH]; simpl.
  - split; [by intros [? ?]|by intros ?%elem_of_nil].
  - rewrite elem_of_cons. destruct (String.eqb k0 k) eqn:E.
    + apply String.eqb_eq in E as ->. naive_solver.
    + apply String.eqb_neq in E. rewrite IH. naive_solver.
Qed.

Lemma setattr_keys_new (ns : namespace) (k : string) (v : pyval) :
  k ∉ ns.*1 → (setattr ns k v).*1 = ns.*1 ++ [k].
Proof.
  induction ns as [|[k0 w] ns IH]; simpl; [done|].
  rewrite not_elem_of_cons. intros [Hne Hnin].
  destruct (String.eqb k0 k) eqn:E; [by apply String.eqb_eq in E|].
  simpl. f_equal. by apply IH.
Qed.

Lemma foldl_setattr_keys (kvs : namespace) (ns : namespace) :
  NoDup (ns.*1 ++ kvs.*1) →
  (foldl (λ ns kv, setattr ns kv.1 kv.2) ns kvs).*1 = ns.*1 ++ kvs.*1.
Proof.
  revert ns. induction kvs as [|[k v] kvs IH]; intros ns Hnd; simpl.
  - by rewrite app_nil_r.
  - simpl in Hnd. apply list.NoDup_app in Hnd as (Hns & Hdisj & Hkvs).
    apply list.NoDup_cons in Hkvs as [Hk Hkvs].
    assert (Hnew : k ∉ ns.*1) by (intros Hin; apply (Hdisj _ Hin); by left).
    rewrite IH; rewrite setattr_keys_new by done.
    + by rewrite <- app_assoc.
    + rewrite <- app_assoc. simpl. apply list.NoDup_app. split; [done|]. split; [|by apply list.NoDup_cons].
      intros x Hx. by apply Hdisj.
Qed.

Lemma attach_test_tube_keys (ns : namespace) :
  ns.*1 = hparams_schema.*1 → (attach_test_tube ns).*1 = hparams_fields.
Proof.
  intros Hkeys. unfold attach_test_tube, hparams_fields.
  assert (Hno : hasattr ns "hpc_exp_number" = false).
  { unfold hasattr. apply bool_decide_eq_false_2. rewrite ns_lookup_keys, Hkeys.
    apply (bool_decide_unpack _). by vm_compute. }
  rewrite Hno.
  assert (Hone : (setattr ns "hpc_exp_number" VNone).*1
                 = hparams_schema.*1 ++ ["hpc_exp_number"]).
  { rewrite setattr_keys_new; rewrite Hkeys; [done|].
    apply (bool_decide_unpack _). by vm_compute. }
  rewrite foldl_setattr_keys; rewrite Hone.
  - by rewrite <- app_assoc.
  - apply (bool_decide_unpack _). by vm_compute.
Qed.

(** Parsing with actions that fit the schema keeps the namespace within
    the schema, fields and order included. *)
Lemma parse_tokens_schema (parser : Parser) (argv : list string) (ns0 : namespace) :
  forallb action_fits (actions parser) = true →
  conformsb (defaults_namespace (actions parser)) = true →
  (defaults_namespace (actions parser)).*1 = hparams_schema.*1 →
  parse_tokens (actions parser) argv (defaults_namespace (actions parser)) = Ok ns0 →
  conforms ns0 ∧ ns0.*1 = hparams_schema.*1.
Proof.
  intros Hfit Hdef Hkeys Htok.
  eapply (parse_tokens_invariant (λ ns, conforms ns ∧ ns.*1 = hparams_schema.*1));
    [|split; [by apply conformsb_conforms|done]|exact Htok].
  intros ns a v [Hc Hk] Ha Hst.
  assert (Hfa : action_fits a = true).
  { rewrite forallb_forall in Hfit. apply Hfit. by apply list_elem_of_In. }
  split; [by apply conforms_setattr|].
  rewrite setattr_keys; [done|].
  destruct (stores_in_schema _ _ Hfa Hst) as [kind Hkind].
  destruct (Hc _ _ Hkind) as (w & -> & _). by eexists.
Qed.

Lemma attach_test_tube_conforms (ns : namespace) :
  conforms ns → conforms (attach_test_tube ns).
Proof.
  intros Hc name kind Hkind. destruct (Hc _ _ Hkind) as (v & Hv & Hkv).
  exists v. split; [|done].
  rewrite attach_test_tube_lookup; [done|]. by eapply schema_names_fresh.
Qed.

Lemma cli_parse_typed (cwd : string) (argv : list string) (ns : namespace) :
  cli_parse cwd argv = Ok ns → conforms ns.
Proof.
  intros (parser & Hget & Hparse)%cli_parse_Ok.
  destruct (get_args_fits cwd) as (parser' & Hget' & Hfit & Hdef & Hkeys).
  rewrite Hget in Hget'. injection Hget' as <-.
  unfold parse_args in Hparse.
  destruct (parse_tokens _ argv _) as [ns0|] eqn:Htok; simpl in Hparse; [|done].
  injection Hparse as <-.
  apply attach_test_tube_conforms. by eapply parse_tokens_schema.
Qed.

(** X1. For a command line within this model (every option string written
    in full, every number in plain decimal notation), a namespace that the
    program's parser returns has exactly the twenty declared fields followed
    by test_tube's attributes, in this order, and every declared field
    holds a value of its kind: integers for the sizes, counts and epochs,
    floats for the rates, strings for the paths, booleans for the switches,
    one of the declared choices for mode and distributed_backend, and an
    integer or None for the seed. *)
Theorem cli_parse_conforms (cwd : string) (argv : list string) (ns : namespace) :
  cli_parse cwd argv = Ok ns → conforms ns ∧ ns.*1 = hparams_fields.
Proof.
  intros (parser & Hget & Hparse)%cli_parse_Ok.
  destruct (get_args_fits cwd) as (parser' & Hget' & Hfit & Hdef & Hkeys).
  rewrite Hget in Hget'. injection Hget' as <-.
  unfold parse_args in Hparse.
  destruct (parse_tokens _ argv _) as [ns0|] eqn:Htok; simpl in Hparse; [|done].
  injection Hparse as <-.
  destruct (parse_tokens_schema _ _ _ Hfit Hdef Hkeys Htok) as [Hc Hk].
  split; [by apply attach_test_tube_conforms|by apply attach_test_tube_keys].
Qed.

Lemma conforms_int (ns : namespace) (name : string) :
  conforms ns → schema_kind name = Some is_int → ∃ n, getattr ns name = Ok (VInt n).
Proof.
  intros Hc Hk. destruct (Hc _ _ Hk) as (v & Hv & Hkind).
  destruct v; try done. eexists. by apply getattr_Ok.
Qed.

Lemma conforms_float (ns : namespace) (name : string) :
  conforms ns → schema_kind name = Some is_float → ∃ q, getattr ns name = Ok (VFloat q).
Proof.
  intros Hc Hk. destruct (Hc _ _ Hk) as (v & Hv & Hkind).
  destruct v; try done. eexists. by apply getattr_Ok.
Qed.

Lemma conforms_str (ns : namespace) (name : string) :
  conforms ns → schema_kind name = Some is_str → ∃ s, getattr ns name = Ok (VStr s).
Proof.
  intros Hc Hk. destruct (Hc _ _ Hk) as (v & Hv & Hkind).
  destruct v; try done. eexists. by apply getattr_Ok.
Qed.

Lemma conforms_bool (ns : namespace) (name : string) :
  conforms ns → schema_kind name = Some is_bool → ∃ b, getattr ns name = Ok (VBool b).
Proof.
  intros Hc Hk. destruct (Hc _ _ Hk) as (v & Hv & Hkind).
  destruct v; try done. eexists. by apply getattr_Ok.
Qed.

Lemma conforms_one_of (ns : namespace) (name : string) (cs : list string) :
  conforms ns → schema_kind name = Some (one_of cs) →
  ∃ s, getattr ns name = Ok (VStr s) ∧ s ∈ cs.
Proof.
  intros Hc Hk. destruct (Hc _ _ Hk) as (v & Hv & Hkind).
  destruct v as [| | | |s|]; try done. exists s. split; [by apply getattr_Ok|].
  simpl in Hkind. apply existsb_exists in Hkind as (c & Hin & ->%String.eqb_eq).
  by apply list_elem_of_In.
Qed.

Lemma conforms_seed (ns : namespace) :
  conforms ns →
  getattr ns "seed" = Ok VNone ∨ ∃ n, getattr ns "seed" = Ok (VInt n).
Proof.
  intros Hc. destruct (Hc "seed" is_int_or_None eq_refl) as (v & Hv & Hkind).
  destruct v; try done; [left|right; eexists]; by apply getattr_Ok.
Qed.

(** ** Which option writes which field *)

Lemma prefix_cons (c : Ascii.ascii) (s t : string) :
  String.prefix (String c s) (String c t) = String.prefix s t.
Proof. cbn [String.prefix]. by destruct (Ascii.ascii_dec c c). Qed.

Lemma prefix_cons_inv (c d : Ascii.ascii) (s t : string) :
  String.prefix (String c s) (String d t) = true → c = d ∧ String.prefix s t = true.
Proof. cbn [String.prefix]. by destruct (Ascii.ascii_dec c d). Qed.

Lemma prefix_single (a c : Ascii.ascii) (r r' : string) :
  String.prefix (String a "") (String c r) = String.prefix (String a "") (String c r').
Proof.
  cbn [String.prefix]. destruct (Ascii.ascii_dec a c); [|done]. by destruct r, r'.
Qed.

Lemma index_eq_prefix (tok : string) (i : nat) :
  String.index 0 "=" tok = Some i →
  String.prefix (String.substring 0 i tok +:+ "=") tok = true.
Proof.
  revert i. induction tok as [|c r IH]; intros i; [done|].
  cbn [String.index].
  destruct (String.prefix "=" (String c r)) eqn:Hp.
  - intros [= <-]. exact Hp.
  - destruct (String.index 0 "=" r) as [n|]; [|done]. intros [= <-].
    cbn [String.substring]. change (String.prefix (String c (String.substring 0 n r +:+ "=")) (String c r) = true).
    rewrite prefix_cons. by apply IH.
Qed.

Lemma prefix_eq_index (f tok : string) (i : nat) :
  String.index 0 "=" f = None →
  String.prefix (f +:+ "=") tok = true →
  String.index 0 "=" tok = Some i →
  String.substring 0 i tok = f.
Proof.
  revert tok i. induction f as [|c f IH]; intros tok i Hf Hp Hi.
  - destruct tok as [|d r]; [done|]. change ("" +:+ "=") with "=" in Hp.
    cbn [String.index] in Hi. rewrite Hp in Hi. by injection Hi as <-.
  - destruct tok as [|d r]; [done|].
    change (String.prefix (String c (f +:+ "=")) (String d r) = true) in Hp.
    apply prefix_cons_inv in Hp as [<- Hp].
    cbn [String.index] in Hf, Hi.
    destruct (String.prefix "=" (String c f)) eqn:Hpf; [done|].
    rewrite (prefix_single _ _ r f), Hpf in Hi.
    destruct (String.index 0 "=" f) as [?|] eqn:Hf'; [done|].
    destruct (String.index 0 "=" r) as [n|] eqn:Hr; [|done].
    injection Hi as <-. cbn [String.substring]. f_equal. by eapply IH.
Qed.

Lemma prefix_eq_has_index (f tok : string) :
  String.prefix (f +:+ "=") tok = true → String.index 0 "=" tok ≠ None.
Proof.
  revert tok. induction f as [|c f IH]; intros tok Hp.
  - destruct tok as [|d r]; [done|]. change ("" +:+ "=") with "=" in Hp.
    cbn [String.index]. by rewrite Hp.
  - destruct tok as [|d r]; [done|].
    change (String.prefix (String c (f +:+ "=")) (String d r) = true) in Hp.
    apply prefix_cons_inv in Hp as [<- Hp].
    cbn [String.index]. destruct (String.prefix "=" (String c r)); [done|].
    specialize (IH _ Hp). by destruct (String.index 0 "=" r).
Qed.

Lemma option_like_not_argument (s : string) :
  option_like s = true → is_argument s = false.
Proof.
  destruct s as [|d [|c r]]; [done..|]. unfold option_like.
  intros [[Hd Hc]%andb_true_iff Hdot]%andb_true_iff.
  apply Ascii.eqb_eq in Hd as ->.
  apply negb_true_iff, bool_decide_eq_false in Hc.
  apply negb_true_iff, Ascii.eqb_neq in Hdot.
  assert (Hdig : digit_of c = None).
  { destruct (digit_of c); [|done]. exfalso. by apply Hc. }
  assert (Hnodot : String.prefix "." (String c r) = false).
  { cbn [String.prefix]. destruct (Ascii.ascii_dec _ c) as [<-|]; [|done].
    by exfalso. }
  assert (Hdash : String.prefix "-" (String (Ascii.ascii_of_nat 45) (String c r)) = true)
    by done.
  unfold is_argument, is_negative_number.
  rewrite Hdash. cbn [negb orb andb tail_of].
  unfold dot_index. cbn [String.index]. rewrite Hnodot.
  destruct (String.index 0 "." r) as [n|].
  - cbn [String.substring]. unfold all_digits. cbn [digits_value]. by rewrite Hdig.
  - unfold unsigned_int. cbn [String.eqb digits_value]. by rewrite Hdig.
Qed.

Lemma option_like_prefix (f x s : string) :
  option_like f = true → String.prefix (f +:+ x) s = true → option_like s = true.
Proof.
  destruct f as [|d [|c f]]; [done..|].
  destruct s as [|d' s].
  { done. }
  change (String.prefix (String d (String c (f +:+ x))) (String d' s) = true
          → option_like (String d' s) = true) || idtac.
  intros Hf Hp.
  change (String.prefix (String d (String c (f +:+ x))) (String d' s) = true) in Hp.
  apply prefix_cons_inv in Hp as [<- Hp].
  destruct s as [|c' s]; [done|].
  apply prefix_cons_inv in Hp as [<- _]. exact Hf.
Qed.

Lemma find_action_Some (acts : list Action) (opt : string) (a : Action) :
  find_action acts opt = Some a → a ∈ acts ∧ opt ∈ option_strings a.
Proof.
  unfold find_action. intros [Hin Hopt]%find_some. split.
  - by apply list_elem_of_In.
  - by apply bool_decide_eq_true in Hopt.
Qed.

Lemma find_action_None (acts : list Action) (opt : string) (a : Action) :
  find_action acts opt = None → a ∈ acts → opt ∉ option_strings a.
Proof.
  unfold find_action. intros Hnone Ha.
  apply list_elem_of_In in Ha.
  pose proof (find_none _ _ Hnone _ Ha) as Hf. by apply bool_decide_eq_false in Hf.
Qed.

Lemma mentions_elem (flags : list string) (tok : string) :
  mentions flags tok = true ↔
  ∃ f, f ∈ flags ∧ (tok = f ∨ String.prefix (f +:+ "=") tok = true).
Proof.
  unfold mentions. rewrite existsb_exists. split.
  - intros (f & Hin & Hf). exists f. split; [by apply list_elem_of_In|].
    apply orb_true_iff in Hf as [Hf|Hf]; [left; by apply String.eqb_eq|by right].
  - intros (f & Hin & Hf). exists f. split; [by apply list_elem_of_In|].
    apply orb_true_iff. destruct Hf as [->|Hf]; [left; apply String.eqb_refl|by right].
Qed.

Lemma flags_of_elem (acts : list Action) (name f : string) :
  f ∈ flags_of acts name ↔ ∃ a, a ∈ acts ∧ dest a = name ∧ f ∈ option_strings a.
Proof.
  unfold flags_of. rewrite list_elem_of_bind. split.
  - intros (a & Hf & [Hd Ha]%list_elem_of_filter). exists a.
    by apply String.eqb_eq in Hd.
  - intros (a & Ha & Hd & Hf). exists a. split; [done|].
    apply list_elem_of_filter. split; [by apply String.eqb_eq|done].
Qed.

Lemma resolve_mentions (acts : list Action) (tok : string) (a : Action)
    (explicit : option string) :
  resolve acts tok = Some (a, explicit) → mentions (option_strings a) tok = true.
Proof.
  unfold resolve. destruct (find_action acts tok) as [a'|] eqn:Ha.
  - intros [= <- _]. apply find_action_Some in Ha as [_ Hin].
    apply mentions_elem. exists tok. by split; [|left].
  - destruct (String.index 0 "=" tok) as [i|] eqn:Hi; simpl; [|done].
    intros (a' & Ha' & [= <- _])%bind_Some.
    apply find_action_Some in Ha' as [_ Hin].
    apply mentions_elem. eexists. split; [exact Hin|]. right. by apply index_eq_prefix.
Qed.

Lemma unique_owner (acts : list Action) (a b : Action) (f : string) :
  NoDup (acts ≫= option_strings) → a ∈ acts → b ∈ acts →
  f ∈ option_strings a → f ∈ option_strings b → a = b.
Proof.
  induction acts as [|x acts IH]; intros Hnd Ha Hb Hfa Hfb.
  - by apply elem_of_nil in Ha.
  - change ((x :: acts) ≫= option_strings)
      with (option_strings x ++ (acts ≫= option_strings)) in Hnd.
    apply list.NoDup_app in Hnd as (_ & Hdisj & Hrest).
    apply elem_of_cons in Ha as [->|Ha]; apply elem_of_cons in Hb as [->|Hb].
    + done.
    + exfalso. apply (Hdisj f Hfa). apply list_elem_of_bind. by exists b.
    + exfalso. apply (Hdisj f Hfb). apply list_elem_of_bind. by exists a.
    + by apply IH.
Qed.

Lemma unambiguous_spec (acts : list Action) :
  unambiguous acts = true →
  NoDup (acts ≫= option_strings) ∧
  ∀ a f, a ∈ acts → f ∈ option_strings a →
         option_like f = true ∧ String.index 0 "=" f = None.
Proof.
  unfold unambiguous. intros [Hnd Hall]%andb_true_iff.
  apply bool_decide_eq_true in Hnd. split; [done|].
  intros a f Ha Hf. rewrite forallb_forall in Hall.
  assert (Hin : f ∈ acts ≫= option_strings) by (apply list_elem_of_bind; by exists a).
  apply list_elem_of_In in Hin. apply Hall in Hin as [Hp Hi]%andb_true_iff.
  split; [done|]. by apply bool_decide_eq_true in Hi.
Qed.

(** With unambiguous option strings, the action a token selects is the only
    one whose option strings the token mentions. *)
Lemma resolve_unambiguous (acts : list Action) (tok : string) (a b : Action)
    (explicit : option string) :
  unambiguous acts = true →
  resolve acts tok = Some (a, explicit) → b ∈ acts →
  mentions (option_strings b) tok = true → a = b.
Proof.
  intros [Hnd Hshape]%unambiguous_spec Hres Hb (f & Hf & Htok)%mentions_elem.
  destruct (Hshape _ _ Hb Hf) as [_ Hnoeq].
  unfold resolve in Hres. destruct (find_action acts tok) as [a'|] eqn:Ha.
  - injection Hres as <- _. apply find_action_Some in Ha as [Ha Hin].
    destruct Htok as [->|Hp].
    + by eapply unique_owner.
    + destruct (Hshape _ _ Ha Hin) as [_ Hno].
      by apply prefix_eq_has_index in Hp.
  - destruct Htok as [->|Hp].
    { by apply (find_action_None _ _ b) in Ha. }
    destruct (String.index 0 "=" tok) as [i|] eqn:Hi; simpl in Hres; [|done].
    apply bind_Some in Hres as (a' & Ha' & [= <- _]).
    rewrite (prefix_eq_index f tok i Hnoeq Hp Hi) in Ha'.
    apply find_action_Some in Ha' as [Ha' Hin]. by eapply unique_owner.
Qed.

Lemma mentions_flags_of (acts : list Action) (name tok : string) :
  mentions (flags_of acts name) tok = true ↔
  ∃ b, b ∈ acts ∧ dest b = name ∧ mentions (option_strings b) tok = true.
Proof.
  rewrite mentions_elem. split.
  - intros (f & (b & Hb & Hd & Hf)%flags_of_elem & Htok). exists b.
    split; [done|]. split; [done|]. apply mentions_elem. by exists f.
  - intros (b & Hb & Hd & (f & Hf & Htok)%mentions_elem). exists f.
    split; [|done]. apply flags_of_elem. by exists b.
Qed.

(** A value token never mentions an option. *)
Lemma argument_not_mentioned (acts : list Action) (name s : string) :
  unambiguous acts = true → is_argument s = true →
  mentions (flags_of acts name) s = false.
Proof.
  intros [_ Hshape]%unambiguous_spec Harg.
  destruct (mentions (flags_of acts name) s) eqn:Hm; [|done].
  apply mentions_elem in Hm as (f & (b & Hb & _ & Hf)%flags_of_elem & Htok).
  destruct (Hshape _ _ Hb Hf) as [Hdash _].
  assert (option_like s = true) as Hs.
  { destruct Htok as [->|Hp]; [done|]. by eapply option_like_prefix. }
  apply option_like_not_argument in Hs. congruence.
Qed.

(** An attribute whose option strings the command line does not mention is
    left as it was. *)
Lemma parse_tokens_frame (acts : list Action) (name : string) :
  ∀ argv ns ns',
    parse_tokens acts argv ns = Ok ns' →
    existsb (mentions (flags_of acts name)) argv = false →
    ns_lookup ns' name = ns_lookup ns name.
Proof.
  intros argv. remember (length argv) as n eqn:Hn. revert argv Hn.
  induction n as [n IH] using lt_wf_ind. intros argv -> ns ns'.
  destruct argv as [|tok rest]; simpl.
  { by intros [= <-]. }
  destruct (resolve acts tok) as [[a explicit]|] eqn:Hres; [|done].
  intros Hparse [Htok Hrest]%orb_false_iff.
  assert (Hne : dest a ≠ name).
  { intros Hd. apply resolve_mentions in Hres as Hm.
    apply resolve_elem in Hres.
    assert (mentions (flags_of acts name) tok = true); [|congruence].
    apply mentions_flags_of. by exists a. }
  destruct (action a) eqn:Hact.
  - destruct explicit as [s|].
    + destruct (store_value a s) as [v|] eqn:Hv; simpl in Hparse; [|done].
      rewrite (IH (length rest) ltac:(simpl; lia) rest eq_refl _ _ Hparse Hrest).
      by apply ns_lookup_setattr_ne.
    + destruct rest as [|s rest']; [done|].
      destruct (is_argument s); [|by destruct (bool_decide _)].
      destruct (store_value a s) as [v|] eqn:Hv; simpl in Hparse; [|done].
      simpl in Hrest. apply orb_false_iff in Hrest as [_ Hrest].
      rewrite (IH (length rest') ltac:(simpl; lia) rest' eq_refl _ _ Hparse Hrest).
      by apply ns_lookup_setattr_ne.
  - destruct explicit; [done|].
    rewrite (IH (length rest) ltac:(simpl; lia) rest eq_refl _ _ Hparse Hrest).
    by apply ns_lookup_setattr_ne.
  - destruct explicit; [done|]. by destruct (forallb _ rest).
Qed.

Lemma parse_tokens_written (acts : list Action) (name : string) :
  unambiguous acts = true →
  ∀ argv ns ns',
    parse_tokens acts argv ns = Ok ns' →
    existsb (mentions (flags_of acts name)) argv = true
    ∨ written acts name (ns_lookup ns name) →
    written acts name (ns_lookup ns' name).
Proof.
  intros Hun argv. remember (length argv) as n eqn:Hn. revert argv Hn.
  induction n as [n IH] using lt_wf_ind. intros argv -> ns ns'.
  destruct argv as [|tok rest]; simpl.
  { intros [= <-] [?|?]; done. }
  destruct (resolve acts tok) as [[a explicit]|] eqn:Hres; [|done].
  intros Hparse Hhyp.
  assert (Ha : a ∈ acts) by by eapply resolve_elem.
  assert (Hstep : ∀ v, stores a v →
            existsb (mentions (flags_of acts name)) rest = true
            ∨ written acts name (ns_lookup (setattr ns (dest a) v) name)).
  { intros v Hst. destruct (decide (dest a = name)) as [Hd|Hd].
    - right. exists a, v. rewrite ns_lookup_setattr, <- Hd, String.eqb_refl. done.
    - rewrite ns_lookup_setattr_ne by done.
      destruct Hhyp as [Hex|Hw]; [|by right]. left.
      apply orb_true_iff in Hex as [Htok|Hex]; [|done].
      apply mentions_flags_of in Htok as (b & Hb & Hdb & Hm).
      rewrite (resolve_unambiguous _ _ _ _ _ Hun Hres Hb Hm) in Hd. done. }
  destruct (action a) eqn:Hact.
  - destruct explicit as [s|].
    + destruct (store_value a s) as [v|] eqn:Hv; simpl in Hparse; [|done].
      eapply (IH (length rest)); [simpl; lia|done|exact Hparse|].
      apply Hstep. unfold stores. rewrite Hact. by exists s.
    + destruct rest as [|s rest']; [done|].
      destruct (is_argument s) eqn:Harg; [|by destruct (bool_decide _)].
      destruct (store_value a s) as [v|] eqn:Hv; simpl in Hparse; [|done].
      eapply (IH (length rest')); [simpl; lia|done|exact Hparse|].
      assert (Hst : stores a v) by (unfold stores; rewrite Hact; by exists s).
      destruct (Hstep v Hst) as [Hex|Hw]; [|by right].
      left. simpl in Hex. by rewrite (argument_not_mentioned _ _ _ Hun Harg) in Hex.
  - destruct explicit; [done|].
    eapply (IH (length rest)); [simpl; lia|done|exact Hparse|].
    apply Hstep. unfold stores. by rewrite Hact.
  - destruct explicit; [done|]. by destruct (forallb _ rest).
Qed.

Lemma get_args_options (cwd : string) :
  ∃ parser, get_args add_model_specific_args cwd = Ok parser ∧
            unambiguous (actions parser) = true ∧
            forallb action_fits (actions parser) = true ∧
            forallb seed_guarded (actions parser) = true ∧
            flags_of (actions parser) "seed" = ["--seed"] ∧
            ns_lookup (defaults_namespace (actions parser)) "seed" = Some VNone.
Proof.
  destruct (get_args add_model_specific_args cwd) as [parser|e] eqn:Hp;
    vm_compute in Hp; [|done].
  injection Hp as <-. eexists. split; [done|].
  repeat split; by vm_compute.
Qed.

Lemma foldl_setattr_congr (kvs : namespace) (k : string) :
  ∀ ns ns0 : namespace,
    ns_lookup ns k = ns_lookup ns0 k →
    ns_lookup (foldl (λ ns kv, setattr ns kv.1 kv.2) ns kvs) k
    = ns_lookup (foldl (λ ns kv, setattr ns kv.1 kv.2) ns0 kvs) k.
Proof.
  induction kvs as [|[k' v] kvs IH]; intros ns ns0 Heq; simpl; [done|].
  apply IH. rewrite !ns_lookup_setattr. by destruct (String.eqb k' k).
Qed.

(** What test_tube attaches depends on an attribute only through that
    attribute. *)
Lemma attach_test_tube_congr (ns ns0 : namespace) (k : string) :
  ns_lookup ns k = ns_lookup ns0 k →
  ns_lookup (attach_test_tube ns) k = ns_lookup (attach_test_tube ns0) k.
Proof.
  intros Heq. unfold attach_test_tube. apply foldl_setattr_congr.
  unfold hasattr.
  destruct (String.eqb "hpc_exp_number" k) eqn:E.
  - apply String.eqb_eq in E as <-. rewrite <- Heq.
    destruct (bool_decide _); [done|]. by rewrite !ns_lookup_setattr, String.eqb_refl.
  - repeat case_bool_decide; rewrite ?ns_lookup_setattr, ?E; done.
Qed.

Lemma stores_seed (a : Action) (v : pyval) :
  seed_guarded a = true → dest a = "seed" → stores a v → ∃ n, v = VInt n.
Proof.
  unfold seed_guarded, stores. intros Hg Hd. rewrite Hd in Hg.
  change (String.eqb "seed" "seed") with true in Hg. cbv iota in Hg.
  destruct (action a); [|done..]. destruct (type a) eqn:Hty; [done| |done].
  intros [s Hs]. unfold store_value, convert in Hs. rewrite Hty in Hs.
  destruct (int_of_string s) as [n|]; simpl in Hs; [|done].
  exists n. destruct (choices a) as [cs|]; [|by injection Hs as <-].
  destruct (existsb _ cs); [|done]. by injection Hs as <-.
Qed.

(** A field of the parsed namespace is decided by its own options. *)
Lemma cli_parse_field (cwd : string) (argv : list string) (hparams : namespace)
    (parser : Parser) (name : string) :
  get_args add_model_specific_args cwd = Ok parser →
  cli_parse cwd argv = Ok hparams →
  if existsb (mentions (flags_of (actions parser) name)) argv
  then written (actions parser) name (ns_lookup hparams name)
  else ns_lookup hparams name
       = ns_lookup (attach_test_tube (defaults_namespace (actions parser))) name.
Proof.
  intros Hget (parser' & Hget' & Hparse)%cli_parse_Ok.
  rewrite Hget in Hget'. injection Hget' as <-.
  destruct (get_args_options cwd) as (parser' & Hget' & Hun & Hfit & _).
  rewrite Hget in Hget'. injection Hget' as <-.
  unfold parse_args in Hparse.
  destruct (parse_tokens _ argv _) as [ns0|] eqn:Htok; simpl in Hparse; [|done].
  injection Hparse as <-.
  destruct (existsb _ argv) eqn:Hex.
  - destruct (parse_tokens_written _ name Hun _ _ _ Htok (or_introl Hex))
      as (a & v & Ha & Hd & Hst & Hv).
    exists a, v. split; [exact Ha|]. split; [exact Hd|]. split; [exact Hst|].
    rewrite attach_test_tube_lookup; [exact Hv|].
    assert (Hfa : action_fits a = true).
    { rewrite forallb_forall in Hfit. apply Hfit. by apply list_elem_of_In. }
    destruct (stores_in_schema _ _ Hfa Hst) as [kind Hkind]. rewrite Hd in Hkind.
    by eapply schema_names_fresh.
  - apply attach_test_tube_congr. by eapply parse_tokens_frame.
Qed.

(** X2. A field is decided by its own options, on an accepted command line
    within this model (every option string written in full, every number in
    plain decimal notation).  If no token is one of the field's option
    strings, alone or followed by [=], the field has the value that the
    empty command line gives it.  Otherwise it holds a value that an action
    writing this field stored: converted by the action's type and among its
    choices. *)
Theorem option_decides_field (cwd : string) (argv : list string)
    (hparams defaults : namespace) (parser : Parser) (name : string) :
  get_args add_model_specific_args cwd = Ok parser →
  cli_parse cwd [] = Ok defaults →
  cli_parse cwd argv = Ok hparams →
  if existsb (mentions (flags_of (actions parser) name)) argv
  then ∃ a v, a ∈ actions parser ∧ dest a = name ∧ stores a v ∧
              getattr hparams name = Ok v
  else getattr hparams name = getattr defaults name.
Proof.
  intros Hget Hdef Hparse.
  pose proof (cli_parse_field cwd argv hparams parser name Hget Hparse) as Hfield.
  pose proof (cli_parse_field cwd [] defaults parser name Hget Hdef) as Hnone.
  simpl in Hnone.
  destruct (existsb _ argv).
  - destruct Hfield as (a & v & Ha & Hd & Hst & Hv). exists a, v.
    split; [exact Ha|]. split; [exact Hd|]. split; [exact Hst|]. by apply getattr_Ok.
  - unfold getattr. by rewrite Hfield, Hnone.
Qed.

Lemma parse_tokens_app (acts : list Action) (argv2 : list string) :
  ∀ argv1 ns ns1,
    parse_tokens acts argv1 ns = Ok ns1 →
    parse_tokens acts (argv1 ++ argv2) ns = parse_tokens acts argv2 ns1.
Proof.
  intros argv1. remember (length argv1) as n eqn:Hn. revert argv1 Hn.
  induction n as [n IH] using lt_wf_ind. intros argv1 -> ns ns1.
  destruct argv1 as [|tok rest]; simpl.
  { by intros [= <-]. }
  destruct (resolve acts tok) as [[a explicit]|] eqn:Hres; [|done].
  destruct (action a) eqn:Hact.
  - destruct explicit as [s|].
    + destruct (store_value a s) as [v|] eqn:Hv; simpl; [|done].
      intros Hparse. by apply (IH (length rest)); [simpl; lia|..].
    + destruct rest as [|s rest']; [done|]. simpl.
      destruct (is_argument s); [|by destruct (bool_decide _)].
      destruct (store_value a s) as [v|] eqn:Hv; simpl; [|done].
      intros Hparse. by apply (IH (length rest')); [simpl; lia|..].
  - destruct explicit; [done|].
    intros Hparse. by apply (IH (length rest)); [simpl; lia|..].
  - destruct explicit; [done|]. by destruct (forallb _ rest).
Qed.

Lemma index_eq_app (f s : string) :
  String.index 0 "=" f = None →
  String.index 0 "=" (f +:+ "=" +:+ s) = Some (String.length f).
Proof.
  induction f as [|c f IH]; intros Hf.
  - change (String.index 0 "=" (String (Ascii.ascii_of_nat 61) s) = Some 0%nat).
    cbn [String.index].
    assert (Hp : String.prefix "=" (String (Ascii.ascii_of_nat 61) s) = true)
      by by destruct s.
    by rewrite Hp.
  - change (String.index 0 "=" (String c (f +:+ "=" +:+ s)) = Some (S (String.length f))).
    cbn [String.index] in Hf |- *.
    rewrite (prefix_single _ _ _ f).
    destruct (String.prefix "=" (String c f)); [done|].
    destruct (String.index 0 "=" f) eqn:Hi; [done|]. by rewrite IH.
Qed.

Lemma substring_app_l (f r : string) :
  String.substring 0 (String.length f) (f +:+ r) = f.
Proof.
  induction f as [|c f IH]; [by destruct r|].
  change (String.substring 0 (S (String.length f)) (String c (f +:+ r)) = String c f).
  cbn [String.substring]. by rewrite IH.
Qed.

Lemma substring_app_r (f s : string) :
  String.substring (S (String.length f))
    (String.length (f +:+ "=" +:+ s) - S (String.length f)) (f +:+ "=" +:+ s) = s.
Proof.
  induction f as [|c f IH].
  - change ("" +:+ "=" +:+ s) with (String (Ascii.ascii_of_nat 61) s).
    cbn [String.length String.substring].
    replace (S (String.length s) - 1)%nat with (String.length s) by lia.
    clear. induction s as [|d s IHs]; [done|].
    cbn [String.length String.substring]. by rewrite IHs.
  - change (String c f +:+ "=" +:+ s) with (String c (f +:+ "=" +:+ s)).
    cbn [String.length String.substring]. exact IH.
Qed.

Lemma resolve_option (acts : list Action) (f : string) (a : Action) :
  find_action acts f = Some a → resolve acts f = Some (a, None).
Proof. unfold resolve. by intros ->. Qed.

Lemma resolve_explicit (acts : list Action) (f s : string) (a : Action) :
  unambiguous acts = true →
  find_action acts f = Some a →
  resolve acts (f +:+ "=" +:+ s) = Some (a, Some s).
Proof.
  intros [_ Hshape]%unambiguous_spec Hf.
  destruct (find_action_Some _ _ _ Hf) as [Ha Hin].
  destruct (Hshape _ _ Ha Hin) as [_ Hnoeq].
  unfold resolve.
  destruct (find_action acts (f +:+ "=" +:+ s)) as [b|] eqn:Hb.
  { apply find_action_Some in Hb as [Hb Hbin].
    destruct (Hshape _ _ Hb Hbin) as [_ Hno].
    by rewrite index_eq_app in Hno. }
  rewrite index_eq_app by done. simpl.
  rewrite substring_app_l, Hf. simpl. by rewrite substring_app_r.
Qed.

(** Reading the tokens of one option stores its value. *)
Lemma parse_tokens_sets (acts : list Action) (f : string) (a : Action)
    (tokens : list string) (v : pyval) (ns : namespace) :
  unambiguous acts = true →
  find_action acts f = Some a → sets a f tokens v →
  parse_tokens acts tokens ns = Ok (setattr ns (dest a) v).
Proof.
  intros Hun Hf Hsets. unfold sets in Hsets.
  destruct (action a) eqn:Hact; [| |done].
  - destruct Hsets as (s & Hv & [[-> Harg]| ->]); simpl.
    + by rewrite (resolve_option _ _ _ Hf), Hact, Harg, Hv.
    + by rewrite (resolve_explicit _ _ _ _ Hun Hf), Hact, Hv.
  - destruct Hsets as [-> ->]. simpl.
    by rewrite (resolve_option _ _ _ Hf), Hact.
Qed.

Lemma sets_stores (a : Action) (f : string) (tokens : list string) (v : pyval) :
  sets a f tokens v → stores a v.
Proof.
  unfold sets, stores. destruct (action a); [|tauto..].
  intros (s & Hv & _). by exists s.
Qed.

(** An option appended to an accepted command line is read last. *)
Lemma cli_parse_append (cwd : string) (argv tokens : list string)
    (ns : namespace) (parser : Parser) (f : string) (a : Action) (v : pyval) :
  get_args add_model_specific_args cwd = Ok parser →
  cli_parse cwd argv = Ok ns →
  find_action (actions parser) f = Some a →
  sets a f tokens v →
  ∃ ns', cli_parse cwd (argv ++ tokens) = Ok ns' ∧
         ∀ name, getattr ns' name
                 = if String.eqb (dest a) name then Ok v else getattr ns name.
Proof.
  intros Hget (parser' & Hget' & Hparse)%cli_parse_Ok Hf Hsets.
  rewrite Hget in Hget'. injection Hget' as <-.
  destruct (get_args_options cwd) as (parser' & Hget' & Hun & Hfit & _).
  rewrite Hget in Hget'. injection Hget' as <-.
  unfold parse_args in Hparse.
  destruct (parse_tokens _ argv _) as [ns0|] eqn:Htok; simpl in Hparse; [|done].
  injection Hparse as <-.
  exists (attach_test_tube (setattr ns0 (dest a) v)). split.
  - unfold cli_parse. rewrite Hget. simpl. unfold parse_args.
    rewrite (parse_tokens_app _ _ _ _ _ Htok).
    by rewrite (parse_tokens_sets _ _ _ _ _ _ Hun Hf Hsets).
  - intros name. unfold getattr.
    destruct (String.eqb (dest a) name) eqn:E.
    + apply String.eqb_eq in E as <-.
      rewrite attach_test_tube_lookup.
      * by rewrite ns_lookup_setattr, String.eqb_refl.
      * destruct (find_action_Some _ _ _ Hf) as [Ha _].
        assert (Hfa : action_fits a = true).
        { rewrite forallb_forall in Hfit. apply Hfit. by apply list_elem_of_In. }
        destruct (stores_in_schema _ _ Hfa (sets_stores _ _ _ _ Hsets)) as [kind Hkind].
        by eapply schema_names_fresh.
    + rewrite (attach_test_tube_congr (setattr ns0 (dest a) v) ns0 name); [done|].
      rewrite ns_lookup_setattr. by rewrite E.
Qed.

(** X13. An option appended to an accepted command line is accepted, sets
    its own field and leaves every other attribute as it was; so of two
    occurrences of an option the later one counts.  The option is one whose
    value is a string or an integer, or a switch; it is given as its option
    string followed by a value, as [option=value], or, for a switch,
    alone. *)
Theorem appended_option_overrides (cwd : string) (argv tokens : list string)
    (ns : namespace) (parser : Parser) (f : string) (a : Action) (v : pyval) :
  get_args add_model_specific_args cwd = Ok parser →
  cli_parse cwd argv = Ok ns →
  find_action (actions parser) f = Some a →
  type a ≠ type_float →
  sets a f tokens v →
  ∃ ns', cli_parse cwd (argv ++ tokens) = Ok ns' ∧
         ∀ name, getattr ns' name
                 = if String.eqb (dest a) name then Ok v else getattr ns name.
Proof.
  intros Hget Hparse Hf _ Hsets. by eapply cli_parse_append.
Qed.

Lemma mentions_seed (argv : list string) :
  existsb (mentions ["--seed"]) argv = existsb sets_seed argv.
Proof.
  induction argv as [|tok rest IH]; [done|]. cbn [existsb]. rewrite IH. f_equal.
  unfold mentions, sets_seed. cbn [existsb]. apply orb_false_r.
Qed.

Lemma cli_parse_seed (cwd : string) (argv : list string) (hparams : namespace) :
  cli_parse cwd argv = Ok hparams →
  if existsb sets_seed argv
  then ∃ seed, getattr hparams "seed" = Ok (VInt seed)
  else getattr hparams "seed" = Ok VNone.
Proof.
  intros Hparse.
  destruct (get_args_options cwd) as (parser & Hget & _ & _ & Hguard & Hflags & Hdflt).
  pose proof (cli_parse_field cwd argv hparams parser "seed" Hget Hparse) as Hfield.
  rewrite Hflags, mentions_seed in Hfield. clear Hparse.
  destruct (existsb sets_seed argv).
  - destruct Hfield as (a & v & Ha & Hd & Hst & Hv).
    assert (Hga : seed_guarded a = true).
    { rewrite forallb_forall in Hguard. apply Hguard. by apply list_elem_of_In. }
    destruct (stores_seed _ _ Hga Hd Hst) as [n ->]. exists n. by apply getattr_Ok.
  - rewrite attach_test_tube_lookup in Hfield
      by (apply (bool_decide_unpack _); by vm_compute).
    rewrite Hdflt in Hfield. by apply getattr_Ok.
Qed.

(** ** [main] and [main.py] *)

Section MainProperties.
Context {T : Type} `{!Tensor T} `{!Imports T} `{!PL T} `{!TestTube T}.

(** A run of [main] without a seed, once the model is built: the trainer is
    configured from the attributes, either Lightning constructor may raise,
    and otherwise [fit] is called once. *)
Lemma main_unseeded hparams (model : EmotionModel T) (save_path : string)
    (gpus distributed_backend use_16bit epochs fast_dev_run track_grad_norm
     overfit_on_subset : pyval) (tr : list (event T)) :
  EmotionModel_init hparams = Ok model →
  getattr hparams "seed" = Ok VNone →
  getattr hparams "save_path" = Ok (VStr save_path) →
  getattr hparams "gpus" = Ok gpus →
  getattr hparams "distributed_backend" = Ok distributed_backend →
  getattr hparams "use_16bit" = Ok use_16bit →
  getattr hparams "epochs" = Ok epochs →
  getattr hparams "fast_dev_run" = Ok fast_dev_run →
  getattr hparams "track_grad_norm" = Ok track_grad_norm →
  getattr hparams "overfit_on_subset" = Ok overfit_on_subset →
  let trainer :=
    {| default_save_path := VStr save_path;
       gpus := gpus;
       distributed_backend := distributed_backend;
       use_amp := use_16bit;
       checkpoint_callback :=
         {| filepath := os_path_join save_path "model_checkpoints";
            save_best_only := true;
            verbose := true;
            monitor := "f1_score";
            mode := "max";
            prefix := "" |};
       max_nb_epochs := epochs;
       weights_summary := "top";
       fast_dev_run := fast_dev_run;
       track_grad_norm := (if truthy track_grad_norm then 2 else -1)%Z;
       overfit_pct := overfit_on_subset |} in
  run (main hparams) tr
  = match ModelCheckpoint_init (checkpoint_callback trainer) with
    | Raise e => (tr, Raise e)
    | Ok _ =>
        match Trainer_init trainer with
        | Raise e => (tr, Raise e)
        | Ok _ => (tr ++ [trainer_fit trainer model], _ ← fit trainer model; Ok VNone)
        end
    end.
Proof.
  intros Hinit Hseed Hsp Hg Hdb Hu Hep Hfdr Htgn Hoos trainer. subst trainer.
  cbn [checkpoint_callback]. unfold main.
  rewrite run_bind, run_load_bound by set_solver.
  rewrite run_bind_lift, Hinit. cbv beta iota.
  rewrite run_bind_lift, Hseed. cbv beta iota.
  rewrite run_bind. change (is_not_None VNone) with false. cbv iota.
  rewrite run_ret.
  rewrite run_bind, run_load_bound by set_solver.
  rewrite run_bind, run_load_bound by set_solver.
  rewrite run_bind_lift, Hsp. cbv beta iota.
  rewrite run_bind_lift. unfold py_path_join. cbv beta iota.
  rewrite run_bind_lift.
  destruct (ModelCheckpoint_init _) as [[]|e]; [|done].
  rewrite run_bind, run_load_bound by set_solver.
  rewrite run_bind_lift. cbv beta iota.
  rewrite run_bind_lift, Hg. cbv beta iota.
  rewrite run_bind_lift, Hdb. cbv beta iota.
  rewrite run_bind_lift, Hu. cbv beta iota.
  rewrite run_bind_lift, Hep. cbv beta iota.
  rewrite run_bind_lift, Hfdr. cbv beta iota.
  rewrite run_bind_lift, Htgn. cbv beta iota.
  rewrite run_bind_lift, Hoos. cbv beta iota.
  rewrite run_bind_lift.
  destruct (Trainer_init _) as [[]|e]; [|done].
  rewrite run_bind, run_emit, run_bind_lift.
  by destruct (fit _ model).
Qed.

Lemma main_stops_at_random hparams (seed : pyval) (model : EmotionModel T)
    (tr : list (event T)) :
  EmotionModel_init hparams = Ok model →
  getattr hparams "seed" = Ok seed →
  is_not_None seed = true →
  run (main hparams) tr = (tr, Raise (NameError "random")).
Proof.
  intros Hinit Hseed Hset. unfold main.
  rewrite run_bind, run_load_bound by set_solver.
  rewrite run_bind_lift, Hinit. cbv beta iota.
  rewrite run_bind_lift, Hseed. cbv beta iota.
  rewrite run_bind, Hset.
  by rewrite run_bind, run_load_global, random_unbound.
Qed.

(** On a configuration that fits the schema and has no seed, [main] gets as
    far as the Lightning calls, with a trainer made of the parsed fields. *)
Lemma main_trains hparams (model : EmotionModel T) (tr : list (event T)) :
  conforms hparams →
  EmotionModel_init hparams = Ok model →
  getattr hparams "seed" = Ok VNone →
  ∃ trainer save_path n_gpus backend epochs,
    run (main hparams) tr
    = match ModelCheckpoint_init (checkpoint_callback trainer) with
      | Raise e => (tr, Raise e)
      | Ok _ =>
          match Trainer_init trainer with
          | Raise e => (tr, Raise e)
          | Ok _ => (tr ++ [trainer_fit trainer model], _ ← fit trainer model; Ok VNone)
          end
      end ∧
    save_best_only (checkpoint_callback trainer) = true ∧
    monitor (checkpoint_callback trainer) = "f1_score" ∧
    mode (checkpoint_callback trainer) = "max" ∧
    getattr hparams "save_path" = Ok (VStr save_path) ∧
    default_save_path trainer = VStr save_path ∧
    filepath (checkpoint_callback trainer) = os_path_join save_path "model_checkpoints" ∧
    getattr hparams "gpus" = Ok (VInt n_gpus) ∧
    gpus trainer = VInt n_gpus ∧
    getattr hparams "distributed_backend" = Ok (VStr backend) ∧
    distributed_backend trainer = VStr backend ∧
    backend ∈ ["dp"; "ddp"; "ddp2"] ∧
    getattr hparams "epochs" = Ok (VInt epochs) ∧
    max_nb_epochs trainer = VInt epochs ∧
    getattr hparams "use_16bit" = Ok (use_amp trainer) ∧
    getattr hparams "fast_dev_run" = Ok (fast_dev_run trainer) ∧
    getattr hparams "overfit_on_subset" = Ok (overfit_pct trainer) ∧
    getattr hparams "track_grad_norm"
    = Ok (VBool (bool_decide (track_grad_norm trainer = 2%Z))).
Proof.
  intros Hc Hinit Hseed.
  destruct (conforms_str _ "save_path" Hc eq_refl) as [sp Hsp].
  destruct (conforms_int _ "gpus" Hc eq_refl) as [g Hg].
  destruct (conforms_one_of _ "distributed_backend" _ Hc eq_refl) as (db & Hdb & Hin).
  destruct (conforms_bool _ "use_16bit" Hc eq_refl) as [u Hu].
  destruct (conforms_int _ "epochs" Hc eq_refl) as [ep Hep].
  destruct (conforms_bool _ "fast_dev_run" Hc eq_refl) as [fdr Hfdr].
  destruct (conforms_bool _ "track_grad_norm" Hc eq_refl) as [tgn Htgn].
  destruct (conforms_float _ "overfit_on_subset" Hc eq_refl) as [oos Hoos].
  eexists _, sp, g, db, ep.
  split.
  { exact (main_unseeded hparams model sp _ _ _ _ _ _ _ tr
             Hinit Hseed Hsp Hg Hdb Hu Hep Hfdr Htgn Hoos). }
  cbn [default_save_path filepath checkpoint_callback gpus distributed_backend
       max_nb_epochs use_amp fast_dev_run overfit_pct track_grad_norm
       save_best_only monitor mode].
  do 16 (split; [done|]).
  rewrite Htgn. by destruct tgn.
Qed.

(** X3. Whether [main] starts to train is decided by the presence of
    [--seed] on the command line, for the module built from the parsed
    configuration.  With a token [--seed] or [--seed=...] the seed is an
    integer and [main] raises NameError for [random] before anything is
    seeded or trained.  Without one the seed is None and [main] goes on to
    Lightning: if the checkpoint callback or the trainer cannot be set up,
    their exception ends the run; otherwise [trainer.fit] is called once on
    the module and [main] returns None, unless [fit] raises. *)
Theorem seed_option_decides_training (cwd : string) (argv : list string)
    (hparams : namespace) (model : EmotionModel T) (tr : list (event T)) :
  cli_parse cwd argv = Ok hparams →
  EmotionModel_init hparams = Ok model →
  if existsb sets_seed argv
  then (∃ seed, getattr hparams "seed" = Ok (VInt seed)) ∧
       run (main hparams) tr = (tr, Raise (NameError "random"))
  else getattr hparams "seed" = Ok VNone ∧
       ∃ trainer,
         run (main hparams) tr
         = match ModelCheckpoint_init (checkpoint_callback trainer) with
           | Raise e => (tr, Raise e)
           | Ok _ =>
               match Trainer_init trainer with
               | Raise e => (tr, Raise e)
               | Ok _ =>
                   (tr ++ [trainer_fit trainer model], _ ← fit trainer model; Ok VNone)
               end
           end.
Proof.
  intros Hparse Hinit.
  pose proof (cli_parse_typed _ _ _ Hparse) as Hc.
  pose proof (cli_parse_seed _ _ _ Hparse) as Hseed.
  destruct (existsb sets_seed argv).
  - destruct Hseed as [n Hn]. split; [by exists n|].
    by eapply main_stops_at_random.
  - split; [done|].
    destruct (main_trains hparams model tr Hc Hinit Hseed)
      as (trainer & sp & g & db & ep & Hrun & _).
    by exists trainer.
Qed.

(** X4. Whatever [hparams] is, a run of [main] ends in one of two ways.
    Either it raises with the trace as it was: nothing was seeded and no
    training was started.  Or the module was built from [hparams], the seed
    is None, and [trainer.fit] was called exactly once on that module; then
    [main] returns None when [fit] returns and ends with the exception of
    [fit] when it raises.  So no run of [main] seeds a random number
    generator or sets cuDNN to deterministic, and none trains twice. *)
Theorem main_trains_or_raises hparams (tr : list (event T)) :
  (∃ e, run (main hparams) tr = (tr, Raise e)) ∨
  (∃ trainer (model : EmotionModel T),
     EmotionModel_init hparams = Ok model ∧
     getattr hparams "seed" = Ok VNone ∧
     ModelCheckpoint_init (checkpoint_callback trainer) = Ok () ∧
     Trainer_init trainer = Ok () ∧
     run (main hparams) tr
     = (tr ++ [trainer_fit trainer model],
        match fit trainer model with
        | Ok _ => Ok VNone
        | Raise e => Raise e
        end)).
Proof.
  destruct (main_run hparams tr)
    as [Hraise | (model & sp & g & db & u16 & ep & fdr & tgn & oos & Hmain)].
  - by left.
  - right. cbv zeta in Hmain.
    destruct Hmain as (Hinit & Hseed & _ & _ & _ & _ & _ & _ & _ & _ & Hck & Htr & Hmain).
    eexists _, model. split; [exact Hinit|]. split; [exact Hseed|].
    split; [exact Hck|]. split; [exact Htr|]. exact Hmain.
Qed.


(** X6. On an accepted command line, for the module built from the parsed
    configuration, each of the three dataloader methods finds the
    attributes it reads, so none fails for a missing attribute: the path
    is a string, the sequence length and the batch size are integers, and
    the label mapping is the four-label dictionary.  What [dataloader]
    makes of them goes through [pl.data_loader]. *)
Theorem module_on_command_line cwd argv hparams (self : EmotionModel T) (pl : Lightning) :
  cli_parse cwd argv = Ok hparams →
  EmotionModel_init hparams = Ok self →
  ∃ train_file val_file test_file max_seq_len bs,
    getattr hparams "train_file" = Ok (VStr train_file) ∧
    getattr hparams "val_file" = Ok (VStr val_file) ∧
    getattr hparams "test_file" = Ok (VStr test_file) ∧
    getattr hparams "max_seq_len" = Ok (VInt max_seq_len) ∧
    getattr hparams "bs" = Ok (VInt bs) ∧
    ∀ lazy,
      train_dataloader pl self lazy
      = data_loader "train_dataloader"
          (dataloader (VStr train_file) (VInt max_seq_len) (VInt bs)
             emo_dict_literal (self_use_ddp pl)) lazy ∧
      val_dataloader pl self lazy
      = data_loader "val_dataloader"
          (dataloader (VStr val_file) (VInt max_seq_len) (VInt bs)
             emo_dict_literal (self_use_ddp pl)) lazy ∧
      test_dataloader pl self lazy
      = data_loader "test_dataloader"
          (dataloader (VStr test_file) (VInt max_seq_len) (VInt bs)
             emo_dict_literal (self_use_ddp pl)) lazy.
Proof.
  intros Hc%cli_parse_typed Hinit.
  apply EmotionModel_init_Ok in Hinit as (ps & nl & dr & _ & _ & _ & ->).
  destruct (conforms_str _ "train_file" Hc eq_refl) as [trf Htrf].
  destruct (conforms_str _ "val_file" Hc eq_refl) as [vf Hvf].
  destruct (conforms_str _ "test_file" Hc eq_refl) as [tf Htf].
  destruct (conforms_int _ "max_seq_len" Hc eq_refl) as [msl Hmsl].
  destruct (conforms_int _ "bs" Hc eq_refl) as [bs Hbs].
  exists trf, vf, tf, msl, bs.
  do 5 (split; [done|]). intros lazy.
  unfold train_dataloader, val_dataloader, test_dataloader.
  cbn [self_hparams self_emo_dict].
  rewrite Htrf, Hvf, Htf, Hmsl, Hbs. by cbn.
Qed.

(** X7. [main.py] in mode default, on an accepted command line, for the
    module built from the parsed configuration.  With a [--seed] option the
    script ends in NameError for [random] before anything is seeded or
    trained.  Without one it goes on to Lightning: an exception of the
    checkpoint callback or of the trainer ends the script before training;
    otherwise [trainer.fit] is called once on the module, and the script
    ends normally unless [fit] raises. *)
Theorem main_py_in_default_mode (cwd : string) (argv : list string)
    (hparams : namespace) (model : EmotionModel T) (tr : list (event T)) :
  cli_parse cwd argv = Ok hparams →
  getattr hparams "mode" = Ok (VStr "default") →
  EmotionModel_init hparams = Ok model →
  if existsb sets_seed argv
  then run (main_py cwd argv) tr = (tr, Raise (NameError "random"))
  else ∃ trainer,
         run (main_py cwd argv) tr
         = match ModelCheckpoint_init (checkpoint_callback trainer) with
           | Raise e => (tr, Raise e)
           | Ok _ =>
               match Trainer_init trainer with
               | Raise e => (tr, Raise e)
               | Ok _ =>
                   (tr ++ [trainer_fit trainer model], _ ← fit trainer model; Ok ())
               end
           end.
Proof.
  intros Hparse Hmode Hinit.
  destruct (cli_parse_shape _ _ _ Hparse) as (_ & (g & Hg) & _).
  rewrite (main_py_dispatch cwd argv hparams "default" g tr Hparse Hmode Hg).
  change (String.eqb "default" "default") with true. cbv iota.
  rewrite run_bind.
  pose proof (cli_parse_typed _ _ _ Hparse) as Hc.
  pose proof (cli_parse_seed _ _ _ Hparse) as Hseed.
  destruct (existsb sets_seed argv).
  - destruct Hseed as [n Hn].
    by rewrite (main_stops_at_random hparams (VInt n) model tr Hinit Hn eq_refl).
  - destruct (main_trains hparams model tr Hc Hinit Hseed)
      as (trainer & sp & n & db & ep & Hmain & _).
    exists trainer. rewrite Hmain.
    destruct (ModelCheckpoint_init _); [|done].
    destruct (Trainer_init _); [|done].
    by destruct (fit _ model).
Qed.

(** C3. [main.py] is the command-line entry point.  Its parser declares
    --gpus (an integer, default 0), --use_16bit (a switch),
    --distributed-backend (one of dp, ddp, ddp2; default dp) and --mode
    (default or hparams_search; default default), and each of them, given on
    an accepted command line, sets its attribute.  With mode default the
    script calls [main] once.  With mode hparams_search and no gpus it hands
    [main] to test_tube's CPU search, with 20 trials and one worker.  With
    mode hparams_search and gpus the call of the GPU search names its
    arguments [nb_trials] and [gpus], which the driver does not have
    ([train_function], [gpu_ids], [max_nb_trials]): the call raises
    TypeError and no trial is run. *)
Theorem main_py_entry_point (cwd : string) :
  (∃ parser, get_args add_model_specific_args cwd = Ok parser ∧
     Forall (λ a, Forall (λ opt, find_action (actions parser) opt = Some a)
                         (option_strings a)) spec_cli_flags) ∧
  (∀ argv hparams a f tokens v,
     cli_parse cwd argv = Ok hparams →
     a ∈ spec_cli_flags → f ∈ option_strings a → sets a f tokens v →
     ∃ hparams', cli_parse cwd (argv ++ tokens) = Ok hparams' ∧
                 getattr hparams' (dest a) = Ok v) ∧
  ∀ argv hparams (m : string) (g : Z) (tr : list (event T)),
    cli_parse cwd argv = Ok hparams →
    getattr hparams "mode" = Ok (VStr m) →
    getattr hparams "gpus" = Ok (VInt g) →
    run (main_py cwd argv) tr
    = if String.eqb m "default" then run (_ ← main hparams; mret ()) tr
      else if Z.eqb g 0 then
        run (_ ← optimize_parallel_cpu hparams main 20 1; mret ()) tr
      else (tr, Raise (TypeError_keyword "optimize_parallel_gpu" "nb_trials")).
Proof.
  split; [apply cli_flags_declared|]. split.
  - intros argv hparams a f tokens v Hparse Ha Hf Hsets.
    destruct (cli_flags_declared cwd) as (parser & Hget & Hflags).
    rewrite list.Forall_forall in Hflags. specialize (Hflags a Ha).
    rewrite list.Forall_forall in Hflags. specialize (Hflags f Hf).
    destruct (cli_parse_append cwd argv tokens hparams parser f a v Hget Hparse Hflags Hsets)
      as (hparams' & Hparse' & Hattrs).
    exists hparams'. split; [exact Hparse'|].
    by rewrite Hattrs, String.eqb_refl.
  - intros argv hparams m g tr. apply main_py_dispatch.
Qed.
End MainProperties.

(** ** [add_model_specific_args] on any parent parser *)

Lemma result_bind_Ok {A B} (a : A) (f : A → result B) : Ok a ≫= f = f a.
Proof. done. Qed.

Lemma head_filter_find (h : string → bool) (l : list string) :
  head (filter (λ f, h f = true) l) = find h l.
Proof.
  induction l as [|x l IH]; [done|]. cbn [find].
  destruct (h x) eqn:Hx.
  - by rewrite filter_cons_True.
  - by rewrite filter_cons_False by congruence.
Qed.

Lemma filter_seen_app (seen own l : list string) :
  (∀ f, f ∈ l → f ∉ own) →
  filter (λ f, f ∈ seen ++ own) l = filter (λ f, f ∈ seen) l.
Proof.
  induction l as [|x l IH]; intros Hl; [done|].
  rewrite !filter_cons, IH by (intros f Hf; apply Hl; by right).
  assert (Hx : x ∉ own) by (apply Hl; by left).
  destruct (decide (x ∈ seen ++ own)) as [Hin|Hout],
           (decide (x ∈ seen)) as [Hin'|Hout']; try done.
  - apply elem_of_app in Hin as [?|?]; done.
  - exfalso. apply Hout, elem_of_app. by left.
Qed.

(** Among actions whose option strings are all different, the constructor
    can only clash with what was there before them. *)
Lemma first_clash_NoDup (acts : list Action) :
  NoDup (acts ≫= option_strings) →
  ∀ seen, first_clash seen acts
          = head (filter (λ f, f ∈ seen) (acts ≫= option_strings)).
Proof.
  induction acts as [|a acts IH]; intros Hnd seen; [done|].
  change ((a :: acts) ≫= option_strings)
    with (option_strings a ++ (acts ≫= option_strings)) in Hnd |- *.
  apply list.NoDup_app in Hnd as (_ & Hdisj & Hnd).
  cbn [first_clash]. rewrite list.filter_app.
  destruct (filter (λ f, f ∈ seen) (option_strings a)) as [|f fs] eqn:Hown; [|done].
  rewrite (IH Hnd). cbn [app]. f_equal. apply filter_seen_app.
  intros f Hf Hin. by apply (Hdisj f).
Qed.

Lemma has_option_app (s : option string) (pre acts extra : list Action)
    (o : list (string * (bool * opt_spec))) (f : string) :
  has_option {| strategy := s; actions := pre ++ acts ++ extra; opt_args := o |} f
  = existsb (λ a, bool_decide (f ∈ option_strings a)) acts
    || existsb (λ a, bool_decide (f ∈ option_strings a)) (pre ++ extra).
Proof.
  unfold has_option. cbn [actions]. rewrite !existsb_app.
  by destruct (existsb _ pre), (existsb _ acts), (existsb _ extra).
Qed.

(** Adding an argument to a parser that holds the actions of [parent] among
    others whose option strings are not the new ones: only [parent] can be
    in the way. *)
Lemma add_argument_over (parent : Parser) (s : option string) (pre extra : list Action)
    (o : list (string * (bool * opt_spec))) (flags : list string)
    (dest_kw : option string) (act : arg_action) (ty : arg_type) (dflt : pyval)
    (chs : option (list pyval)) :
  forallb (λ f, negb (existsb (λ a, bool_decide (f ∈ option_strings a)) (pre ++ extra)))
          flags = true →
  add_argument {| strategy := s; actions := pre ++ actions parent ++ extra; opt_args := o |}
    flags dest_kw act ty dflt chs
  = match find (has_option parent) flags with
    | Some f => Raise (ArgumentError f)
    | None =>
        Ok {| strategy := s;
              actions := pre ++ actions parent ++ extra ++
                [ {| option_strings := flags;
                     dest := from_option id (infer_dest flags) dest_kw;
                     action := act; type := ty; default := dflt; choices := chs |} ];
              opt_args := o |}
    end.
Proof.
  intros Hfresh. unfold add_argument.
  assert (Hsame : filter (λ f, has_option {| strategy := s;
                                             actions := pre ++ actions parent ++ extra;
                                             opt_args := o |} f = true) flags
                  = filter (λ f, has_option parent f = true) flags).
  { induction flags as [|f flags IH]; [done|].
    simpl in Hfresh. apply andb_true_iff in Hfresh as [Hf Hrest].
    apply negb_true_iff in Hf.
    rewrite !filter_cons, IH by done.
    rewrite has_option_app, Hf, orb_false_r. done. }
  rewrite Hsame. clear Hsame.
  pose proof (head_filter_find (has_option parent) flags) as Hhead.
  destruct (filter _ flags) as [|f fs]; simpl in Hhead; rewrite <- Hhead; [|done].
  cbn [actions strategy opt_args]. by rewrite <- !app_assoc.
Qed.

Lemma opt_list_over (parent : Parser) (s : option string) (pre extra : list Action)
    (o : list (string * (bool * opt_spec))) (flags : list string)
    (dflt : pyval) (ty : arg_type) (options : list pyval) (tunable : bool) :
  forallb (λ f, negb (existsb (λ a, bool_decide (f ∈ option_strings a)) (pre ++ extra)))
          flags = true →
  opt_list {| strategy := s; actions := pre ++ actions parent ++ extra; opt_args := o |}
    flags dflt ty options tunable
  = match find (has_option parent) flags with
    | Some f => Raise (ArgumentError f)
    | None =>
        Ok {| strategy := s;
              actions := pre ++ actions parent ++ extra ++
                [ {| option_strings := flags;
                     dest := infer_dest flags;
                     action := store; type := ty; default := dflt; choices := None |} ];
              opt_args := o ++ ((λ f, (f, (tunable, opt_list_spec options))) <$> flags) |}
    end.
Proof.
  intros Hfresh. unfold opt_list. rewrite add_argument_over by done.
  by destruct (find _ flags).
Qed.

Lemma opt_range_over (parent : Parser) (s : option string) (pre extra : list Action)
    (o : list (string * (bool * opt_spec))) (flags : list string)
    (dflt : pyval) (ty : arg_type) (tunable : bool) (low high : Q) (nb_samples : Z)
    (dest_kw : option string) :
  forallb (λ f, negb (existsb (λ a, bool_decide (f ∈ option_strings a)) (pre ++ extra)))
          flags = true →
  opt_range {| strategy := s; actions := pre ++ actions parent ++ extra; opt_args := o |}
    flags dflt ty tunable low high nb_samples dest_kw
  = match find (has_option parent) flags with
    | Some f => Raise (ArgumentError f)
    | None =>
        Ok {| strategy := s;
              actions := pre ++ actions parent ++ extra ++
                [ {| option_strings := flags;
                     dest := from_option id (infer_dest flags) dest_kw;
                     action := store; type := ty; default := dflt; choices := None |} ];
              opt_args :=
                o ++ ((λ f, (f, (tunable, opt_range_spec low high nb_samples)))
                        <$> from_option (λ f, [f]) [] (list.last flags)) |}
    end.
Proof.
  intros Hfresh. unfold opt_range. rewrite add_argument_over by done.
  by destruct (find _ flags).
Qed.

(** The constructor call of [add_model_specific_args] on a parent whose
    option strings are all different: only [-h] and [--help] can clash. *)
Lemma HyperOptArgumentParser_call_parent (parent : Parser) :
  NoDup (actions parent ≫= option_strings) →
  HyperOptArgumentParser_call None [parent] true
  = match filter (λ f, f ∈ option_strings help_action)
                 (actions parent ≫= option_strings) with
    | f :: _ => Raise (ArgumentError f)
    | [] => Ok {| strategy := None;
                  actions := [help_action] ++ actions parent ++ [];
                  opt_args := [] |}
    end.
Proof.
  intros Hnd. unfold HyperOptArgumentParser_call, HyperOptArgumentParser.
  cbv zeta. cbn [actions].
  change ([parent] ≫= actions) with (actions parent ++ []).
  change (first_clash [] ([help_action] ++ actions parent ++ []))
    with (first_clash ([] ++ option_strings help_action) (actions parent ++ [])).
  rewrite app_nil_r, (first_clash_NoDup _ Hnd). cbn [app].
  by destruct (filter _ (actions parent ≫= option_strings)).
Qed.

(** What [add_model_specific_args] returns once the constructor has accepted
    the parent, in one equation. *)
Lemma add_model_specific_args_over (parent : Parser) (root_dir : string) :
  (parser ← Ok {| strategy := None;
                  actions := [help_action] ++ actions parent ++ [];
                  opt_args := [] |};
   parser ← opt_list parser ["--bs"; "--batch_size"] (VInt 40) type_int
              [VInt 10; VInt 40; VInt 80] true;
   parser ← opt_list parser ["--max_seq_len"] (VInt 10) type_int
              [VInt 5; VInt 10; VInt 15] true;
   parser ← opt_list parser ["--projection_size"] (VInt 100) type_int
              [VInt 50; VInt 100; VInt 150] true;
   parser ← opt_list parser ["--dropout"] (VFloat (decimal 1 1)) type_float
              [VFloat (decimal 5 2); VFloat (decimal 1 1); VFloat (decimal 2 1)] true;
   parser ← opt_list parser ["--n_layers"] (VInt 1) type_int
              [VInt 1; VInt 2; VInt 3] true;
   parser ← opt_range parser ["--lr"; "--learning_rate"] (VFloat (decimal 2 5)) type_float
              true (decimal 1 5) (decimal 3 5) 4 (Some "lr");
   parser ← opt_list parser ["--layerwise_decay"] (VFloat (decimal 95 2)) type_float
              [VFloat (decimal 99 2); VFloat (decimal 95 2); VFloat (decimal 9 1)] true;
   parser ← add_argument parser ["--train_file"] None store type_str
              (VStr (os_path_join root_dir "data/clean_train.txt")) None;
   parser ← add_argument parser ["--val_file"] None store type_str
              (VStr (os_path_join root_dir "data/clean_val.txt")) None;
   parser ← add_argument parser ["--test_file"] None store type_str
              (VStr (os_path_join root_dir "data/clean_test.txt")) None;
   parser ← add_argument parser ["--epochs"] None store type_int (VInt 10) None;
   parser ← add_argument parser ["--seed"] None store type_int VNone None;
   Ok parser)
  = match find (has_option parent) model_option_strings with
    | Some f => Raise (ArgumentError f)
    | None =>
        own ← add_model_specific_args bare_parser root_dir;
        Ok {| strategy := None;
              actions := help_action :: actions parent ++ drop 1 (actions own);
              opt_args := opt_args own |}
    end.
Proof.
  remember (match find (has_option parent) model_option_strings with
            | Some f => Raise (ArgumentError f)
            | None => _
            end) as rhs eqn:Hrhs.
  unfold model_option_strings in Hrhs. cbn [find] in Hrhs.
  rewrite result_bind_Ok.
  repeat (first [ rewrite opt_list_over by (by vm_compute)
                | rewrite opt_range_over by (by vm_compute)
                | rewrite add_argument_over by (by vm_compute) ];
          cbn [find];
          repeat match goal with
                 | |- context [has_option parent ?f] =>
                     destruct (has_option parent f) eqn:?;
                     [ subst rhs;
                       repeat match goal with
                              | H : has_option parent _ = _ |- _ => rewrite H; clear H
                              end;
                       done
                     | ]
                 end;
          rewrite result_bind_Ok; cbv beta).
  subst rhs.
  destruct (add_model_specific_args bare_parser root_dir) as [own|e] eqn:Hown;
    vm_compute in Hown; [|done].
  injection Hown as <-. rewrite result_bind_Ok.
  cbn [actions opt_args strategy drop]. f_equal.
Qed.

(** X8. [add_model_specific_args] on any parent parser whose option strings
    are all different, as those of a parser are.  If the parent has a help
    option, the constructor refuses it: ArgumentError for the first of the
    parent's option strings that is [-h] or [--help].  Else, if the parent
    declares one of the fourteen option strings of the module, the call
    raises ArgumentError for the first of them in declaration order.
    Otherwise it returns a parser whose actions are the help option, then
    those of the parent, then the module's twelve arguments, and whose
    search space is the module's alone. *)
Theorem add_model_specific_args_parent (parent : Parser) (root_dir : string) :
  NoDup (actions parent ≫= option_strings) →
  match filter (λ f, f ∈ option_strings help_action)
               (actions parent ≫= option_strings) with
  | f :: _ => add_model_specific_args parent root_dir = Raise (ArgumentError f)
  | [] =>
      match find (has_option parent) model_option_strings with
      | Some f => add_model_specific_args parent root_dir = Raise (ArgumentError f)
      | None =>
          ∃ parser own,
            add_model_specific_args parent root_dir = Ok parser ∧
            add_model_specific_args bare_parser root_dir = Ok own ∧
            actions parser = help_action :: actions parent ++ drop 1 (actions own) ∧
            opt_args parser = opt_args own
      end
  end.
Proof.
  intros Hnd.
  pose proof (HyperOptArgumentParser_call_parent parent Hnd) as Hcall.
  pose proof (add_model_specific_args_over parent root_dir) as Hover.
  destruct (filter _ (actions parent ≫= option_strings)) as [|f fs];
    [|unfold add_model_specific_args; by rewrite Hcall].
  assert (Heq : add_model_specific_args parent root_dir
                = match find (has_option parent) model_option_strings with
                  | Some f => Raise (ArgumentError f)
                  | None =>
                      own ← add_model_specific_args bare_parser root_dir;
                      Ok {| strategy := None;
                            actions := help_action :: actions parent ++ drop 1 (actions own);
                            opt_args := opt_args own |}
                  end).
  { unfold add_model_specific_args at 1. rewrite Hcall. exact Hover. }
  rewrite Heq. clear Heq Hover Hcall.
  destruct (find (has_option parent) model_option_strings); [done|].
  destruct (add_model_specific_args bare_parser root_dir) as [own|e] eqn:Hown.
  - exists {| strategy := None;
              actions := help_action :: actions parent ++ drop 1 (actions own);
              opt_args := opt_args own |}, own.
    by rewrite result_bind_Ok.
  - exfalso. vm_compute in Hown. done.
Qed.

(** ** [validation_end] in any mode *)

Section ValidationEnd.
Context {T : Type} `{!Tensor T} `{!Imports T}.
Implicit Types (pl : Lightning) (outputs : list (gmap string T)).

Lemma accumulate_Ok pl metric_name outputs acc :
  Forall (λ output : gmap string T, is_Some (output !! metric_name)) outputs →
  accumulate pl metric_name outputs acc
  = Ok (foldl tensor_add acc (step_value pl metric_name <$> per_step metric_name outputs)).
Proof.
  intros Hall. revert acc.
  induction Hall as [|output outputs [v Hv] _ IH]; intros acc; simpl; [done|].
  unfold dict_getitem, per_step. simpl. rewrite Hv. simpl. apply IH.
Qed.

Lemma accumulate_missing pl metric_name outputs acc :
  Exists (λ output : gmap string T, output !! metric_name = None) outputs →
  accumulate pl metric_name outputs acc = Raise KeyError.
Proof.
  intros Hex. revert acc.
  induction Hex as [output outputs Hnone|output outputs _ IH]; intros acc; simpl.
  - unfold dict_getitem. by rewrite Hnone.
  - unfold dict_getitem. destruct (output !! metric_name); [|done]. simpl. apply IH.
Qed.

Lemma accumulate_cases (metric_name : string) outputs :
  (Forall (λ output : gmap string T, is_Some (output !! metric_name)) outputs) ∨
  (Exists (λ output : gmap string T, output !! metric_name = None) outputs).
Proof.
  induction outputs as [|output outputs IH].
  - by left.
  - destruct (output !! metric_name) as [v|] eqn:Hv.
    + destruct IH as [IH|IH]; [left|right]; [by constructor; [exists v|]|by apply Exists_cons_tl].
    + right. by apply Exists_cons_hd.
Qed.

(** [aggregate] fills in one entry per metric name, and fails exactly when
    some output lacks one of the names. *)
Lemma aggregate_Ok pl metric_names outputs (tqdm_dict : gmap string T) :
  Forall (λ name, Forall (λ output : gmap string T, is_Some (output !! name)) outputs)
         metric_names →
  ∃ d : gmap string T,
    aggregate pl metric_names outputs tqdm_dict = Ok d ∧
    ∀ k, d !! k = if decide (k ∈ metric_names) then Some (metric_entry pl k outputs)
                  else tqdm_dict !! k.
Proof.
  intros Hall. revert tqdm_dict.
  induction Hall as [|name names Hname _ IH]; intros tqdm_dict; simpl.
  - by exists tqdm_dict.
  - rewrite (accumulate_Ok pl name outputs _ Hname). simpl.
    destruct (IH (<[name := metric_entry pl name outputs]> tqdm_dict)) as (d & Hd & Hlook).
    exists d. split; [done|]. intros k. rewrite Hlook.
    destruct (decide (k = name)) as [->|Hne].
    + rewrite lookup_insert_eq, (decide_True (P := name ∈ name :: names))
        by apply list_elem_of_here.
      by destruct (decide (name ∈ names)).
    + rewrite lookup_insert_ne by done.
      destruct (decide (k ∈ names)).
      * by rewrite decide_True by by apply list_elem_of_further.
      * rewrite decide_False; [done|]. rewrite elem_of_cons. tauto.
Qed.

Lemma aggregate_missing pl metric_names outputs (tqdm_dict : gmap string T) :
  Exists (λ name, Exists (λ output : gmap string T, output !! name = None) outputs)
         metric_names →
  aggregate pl metric_names outputs tqdm_dict = Raise KeyError.
Proof.
  intros Hex. revert tqdm_dict.
  induction Hex as [name names Hname|name names _ IH]; intros tqdm_dict; simpl.
  - by rewrite accumulate_missing.
  - destruct (accumulate_cases name outputs) as [Hall|Hmiss].
    + rewrite (accumulate_Ok pl name outputs _ Hall). simpl. apply IH.
    + by rewrite accumulate_missing.
Qed.

Lemma aggregate_cases metric_names outputs :
  Forall (λ name, Forall (λ output : gmap string T, is_Some (output !! name)) outputs)
         metric_names ∨
  Exists (λ name, Exists (λ output : gmap string T, output !! name = None) outputs)
         metric_names.
Proof.
  induction metric_names as [|name names IH]; [by left|].
  destruct (accumulate_cases name outputs) as [Hall|Hmiss].
  - destruct IH as [IH|IH]; [left; by constructor|right; by apply Exists_cons_tl].
  - right. by apply Exists_cons_hd.
Qed.

Lemma aggregate_first pl outputs (first : gmap string T) :
  (Forall (λ output : gmap string T, dom first ⊆ dom output) outputs ∧
   ∃ d : gmap string T,
     aggregate pl (map_to_list first).*1 outputs ∅ = Ok d ∧
     ∀ k, d !! k = if decide (k ∈ dom first) then Some (metric_entry pl k outputs) else None)
  ∨
  (¬ Forall (λ output : gmap string T, dom first ⊆ dom output) outputs ∧
   aggregate pl (map_to_list first).*1 outputs ∅ = Raise KeyError).
Proof.
  destruct (aggregate_cases (map_to_list first).*1 outputs) as [Hall|Hmiss].
  - left. split.
    + apply list.Forall_forall. intros output Hout k Hk.
      rewrite list.Forall_forall in Hall. specialize (Hall k (proj2 (elem_of_keys _ _) Hk)).
      rewrite list.Forall_forall in Hall. apply elem_of_dom. by apply Hall.
    + destruct (aggregate_Ok pl _ outputs ∅ Hall) as (d & Hd & Hlook).
      exists d. split; [done|]. intros k. rewrite Hlook.
      destruct (decide (k ∈ dom first)) as [Hin|Hnin].
      * by rewrite decide_True by by apply elem_of_keys.
      * rewrite decide_False by by rewrite elem_of_keys. apply lookup_empty.
  - right. split; [|by apply aggregate_missing].
    intros Hsame. apply list.Exists_exists in Hmiss as (name & Hname & Hmiss).
    apply list.Exists_exists in Hmiss as (output & Hout & Hnone).
    rewrite list.Forall_forall in Hsame. specialize (Hsame _ Hout).
    apply elem_of_keys in Hname. apply not_elem_of_dom in Hnone. set_solver.
Qed.

Lemma validation_end_head pl outputs (first : gmap string T) :
  head outputs = Some first →
  validation_end pl outputs
  = (tqdm_dict ← aggregate pl (map_to_list first).*1 outputs ∅;
     tp ← dict_getitem tqdm_dict "tp";
     fp ← dict_getitem tqdm_dict "fp";
     fn ← dict_getitem tqdm_dict "fn";
     let tqdm_dict := f1_score tp fp fn ∪ tqdm_dict in
     val_loss ← dict_getitem tqdm_dict "val_loss";
     Ok {| progress_bar := tqdm_dict; log := tqdm_dict; val_loss := val_loss |}).
Proof. destruct outputs; [done|]. by intros [= ->]. Qed.

(** X9. With total tensor operations and a total [f1_score],
    [validation_end] can fail in two ways only: with IndexError, exactly on
    an empty list of outputs, and with KeyError. *)
Theorem validation_end_errors pl outputs :
  (validation_end pl outputs = Raise IndexError ↔ outputs = []) ∧
  ∀ e, validation_end pl outputs = Raise e → e = IndexError ∨ e = KeyError.
Proof.
  destruct outputs as [|first outputs']; [by split; [|intros e [= <-]; left]|].
  rewrite (validation_end_head pl _ first) by done.
  assert (Herr : ∀ e,
    (tqdm_dict ← aggregate pl (map_to_list first).*1 (first :: outputs') ∅;
     tp ← dict_getitem tqdm_dict "tp";
     fp ← dict_getitem tqdm_dict "fp";
     fn ← dict_getitem tqdm_dict "fn";
     let tqdm_dict := f1_score tp fp fn ∪ tqdm_dict in
     val_loss ← dict_getitem tqdm_dict "val_loss";
     Ok {| progress_bar := tqdm_dict; log := tqdm_dict; val_loss := val_loss |})
    = Raise e → e = KeyError).
  { intros e.
    destruct (aggregate_first pl (first :: outputs') first) as [[_ (d & -> & _)]|[_ ->]];
      [|by intros [= <-]].
    cbn. unfold dict_getitem.
    destruct (d !! "tp") as [tp|]; cbn; [|by intros [= <-]].
    destruct (d !! "fp") as [fp|]; cbn; [|by intros [= <-]].
    destruct (d !! "fn") as [fn|]; cbn; [|by intros [= <-]].
    destruct ((f1_score tp fp fn ∪ d) !! "val_loss"); cbn; [done|by intros [= <-]]. }
  split.
  - split; [|done]. by intros ?%Herr.
  - intros e ?%Herr. by right.
Qed.

(** What [validation_end] does once the first output is known, in terms of
    the entries it stores. *)
Lemma validation_end_cases pl outputs (first : gmap string T) :
  head outputs = Some first →
  let prec_rec_f1 :=
    f1_score (metric_entry pl "tp" outputs) (metric_entry pl "fp" outputs)
             (metric_entry pl "fn" outputs) in
  let tqdm_dict : gmap string T → Prop := λ d,
    ∀ k, d !! k = match prec_rec_f1 !! k with
                  | Some v => Some v
                  | None => if decide (k ∈ dom first)
                            then Some (metric_entry pl k outputs) else None
                  end in
  (Forall (λ output : gmap string T, dom first ⊆ dom output) outputs ∧
   Forall (λ k, k ∈ dom first) ["tp"; "fp"; "fn"] ∧
   "val_loss" ∈ dom first ∪ dom prec_rec_f1 ∧
   ∃ d v, validation_end pl outputs = Ok {| progress_bar := d; log := d; val_loss := v |} ∧
          tqdm_dict d ∧ d !! "val_loss" = Some v)
  ∨
  (¬ (Forall (λ output : gmap string T, dom first ⊆ dom output) outputs ∧
      Forall (λ k, k ∈ dom first) ["tp"; "fp"; "fn"] ∧
      "val_loss" ∈ dom first ∪ dom prec_rec_f1) ∧
   validation_end pl outputs = Raise KeyError).
Proof.
  intros Hhead prf tqdm. rewrite (validation_end_head pl _ first) by done.
  destruct (aggregate_first pl outputs first) as [[Hsame (d & -> & Hlook)]|[Hdiff ->]];
    [|right; split; [tauto|done]].
  cbn. unfold dict_getitem.
  rewrite (Hlook "tp").
  destruct (decide ("tp" ∈ dom first)) as [Htp|Htp]; cbn;
    [|right; split; [|done]; intros (_ & Hk & _);
      apply list.Forall_cons in Hk as [? _]; done].
  rewrite (Hlook "fp").
  destruct (decide ("fp" ∈ dom first)) as [Hfp|Hfp]; cbn;
    [|right; split; [|done]; intros (_ & Hk & _);
      apply list.Forall_cons in Hk as [_ Hk]; apply list.Forall_cons in Hk as [? _]; done].
  rewrite (Hlook "fn").
  destruct (decide ("fn" ∈ dom first)) as [Hfn|Hfn]; cbn;
    [|right; split; [|done]; intros (_ & Hk & _);
      apply list.Forall_cons in Hk as [_ Hk]; apply list.Forall_cons in Hk as [_ Hk];
      apply list.Forall_cons in Hk as [? _]; done].
  fold prf.
  assert (Hunion : ∀ k, (prf ∪ d) !! k
                        = match prf !! k with
                          | Some v => Some v
                          | None => if decide (k ∈ dom first)
                                    then Some (metric_entry pl k outputs) else None
                          end).
  { intros k. rewrite lookup_union, Hlook. by destruct (prf !! k), (decide (k ∈ dom first)). }
  destruct ((prf ∪ d) !! "val_loss") as [v|] eqn:Hv; cbn.
  - left. split; [done|]. split; [by repeat constructor|]. split.
    + rewrite Hunion in Hv. apply elem_of_union.
      destruct (prf !! "val_loss") eqn:Hp; [right; by apply elem_of_dom_2 in Hp|].
      destruct (decide ("val_loss" ∈ dom first)); [by left|done].
    + by exists (prf ∪ d), v.
  - right. split; [|done]. intros (_ & _ & Hvl).
    rewrite Hunion in Hv. apply elem_of_union in Hvl as [Hvl|Hvl].
    + rewrite decide_True in Hv by done. by destruct (prf !! "val_loss").
    + apply elem_of_dom in Hvl as [w Hw]. by rewrite Hw in Hv.
Qed.

(** X10. On a non-empty list, [validation_end] returns exactly when every
    output reports the metrics of the first one, the first one has 'tp',
    'fp' and 'fn', and 'val_loss' is a metric of the steps or an entry of
    [f1_score]; otherwise it raises KeyError. *)
Theorem validation_end_returns_iff pl outputs (first : gmap string T) :
  head outputs = Some first →
  let prec_rec_f1 :=
    f1_score (metric_entry pl "tp" outputs) (metric_entry pl "fp" outputs)
             (metric_entry pl "fn" outputs) in
  let well_formed :=
    Forall (λ output : gmap string T, dom first ⊆ dom output) outputs ∧
    Forall (λ k, k ∈ dom first) ["tp"; "fp"; "fn"] ∧
    "val_loss" ∈ dom first ∪ dom prec_rec_f1 in
  ((∃ r, validation_end pl outputs = Ok r) ↔ well_formed) ∧
  (validation_end pl outputs = Raise KeyError ↔ ¬ well_formed).
Proof.
  intros Hhead prf wf.
  destruct (validation_end_cases pl outputs first Hhead)
    as [(H1 & H2 & H3 & d & v & -> & _)|[Hnot ->]].
  - split; split; try done.
    + by eexists.
    + intros Hn. by destruct Hn.
  - split; split; try done. by intros [r ?].
Qed.

(** X11. In any mode, the dictionary that [validation_end] returns under
    'progress_bar' is also the one under 'log'; an entry of [f1_score]
    takes precedence over a step metric of the same name; every other
    metric of the steps is stored as its total (counts) or its total
    divided by the number of outputs, where in DP mode each step
    contributes the [torch.sum] (counts) or [torch.mean] of its value; and
    the top-level 'val_loss' is the dictionary's entry. *)
Theorem validation_end_entries pl outputs (first : gmap string T)
    (r : validation_result T) :
  head outputs = Some first →
  validation_end pl outputs = Ok r →
  let prec_rec_f1 :=
    f1_score (metric_entry pl "tp" outputs) (metric_entry pl "fp" outputs)
             (metric_entry pl "fn" outputs) in
  log r = progress_bar r ∧
  (∀ k, progress_bar r !! k
        = match prec_rec_f1 !! k with
          | Some v => Some v
          | None => if decide (k ∈ dom first)
                    then Some (metric_entry pl k outputs) else None
          end) ∧
  progress_bar r !! "val_loss" = Some (val_loss r).
Proof.
  intros Hhead Hr prf.
  destruct (validation_end_cases pl outputs first Hhead)
    as [(_ & _ & _ & d & v & Hend & Hd & Hv)|[_ Hend]]; rewrite Hend in Hr; [|done].
  by injection Hr as <-.
Qed.
End ValidationEnd.

(** ** The further properties at concrete inputs *)

Lemma cli_parse_conforms_witness :
  cli_parse "/r" readme_argv = Ok (parsed "/r" readme_argv) ∧
  conforms (parsed "/r" readme_argv) ∧
  (parsed "/r" readme_argv).*1 = hparams_fields.
Proof.
  assert (Hparse : cli_parse "/r" readme_argv = Ok (parsed "/r" readme_argv))
    by by vm_compute.
  split; [exact Hparse|].
  exact (cli_parse_conforms "/r" readme_argv (parsed "/r" readme_argv) Hparse).
Defined.

Lemma option_decides_field_witness :
  let argv := ["--epochs"; "3"] in
  get_args add_model_specific_args "/r" = Ok (program_parser "/r") ∧
  cli_parse "/r" [] = Ok (parsed "/r" []) ∧
  cli_parse "/r" argv = Ok (parsed "/r" argv) ∧
  (∃ a v, a ∈ actions (program_parser "/r") ∧ dest a = "epochs" ∧ stores a v ∧
          getattr (parsed "/r" argv) "epochs" = Ok v) ∧
  getattr (parsed "/r" argv) "bs" = getattr (parsed "/r" []) "bs".
Proof.
  intros argv.
  assert (Hget : get_args add_model_specific_args "/r" = Ok (program_parser "/r"))
    by by vm_compute.
  assert (Hdef : cli_parse "/r" [] = Ok (parsed "/r" [])) by by vm_compute.
  assert (Hparse : cli_parse "/r" argv = Ok (parsed "/r" argv)) by by vm_compute.
  split; [exact Hget|]. split; [exact Hdef|]. split; [exact Hparse|]. split.
  - exact (option_decides_field "/r" argv (parsed "/r" argv)
             (parsed "/r" []) (program_parser "/r") "epochs" Hget Hdef Hparse).
  - exact (option_decides_field "/r" argv (parsed "/r" argv)
             (parsed "/r" []) (program_parser "/r") "bs" Hget Hdef Hparse).
Defined.

Lemma appended_option_overrides_witness :
  get_args add_model_specific_args "/r" = Ok (program_parser "/r") ∧
  cli_parse "/r" ["--epochs"; "3"] = Ok (parsed "/r" ["--epochs"; "3"]) ∧
  find_action (actions (program_parser "/r")) "--epochs" = Some epochs_action ∧
  type epochs_action ≠ type_float ∧
  sets epochs_action "--epochs" ["--epochs=5"] (VInt 5) ∧
  ∃ ns', cli_parse "/r" (["--epochs"; "3"] ++ ["--epochs=5"]) = Ok ns' ∧
         ∀ name, getattr ns' name
                 = if String.eqb (dest epochs_action) name then Ok (VInt 5)
                   else getattr (parsed "/r" ["--epochs"; "3"]) name.
Proof.
  assert (Hget : get_args add_model_specific_args "/r" = Ok (program_parser "/r"))
    by by vm_compute.
  assert (Hparse : cli_parse "/r" ["--epochs"; "3"] = Ok (parsed "/r" ["--epochs"; "3"]))
    by by vm_compute.
  assert (Hf : find_action (actions (program_parser "/r")) "--epochs" = Some epochs_action)
    by by vm_compute.
  assert (Hty : type epochs_action ≠ type_float) by done.
  assert (Hsets : sets epochs_action "--epochs" ["--epochs=5"] (VInt 5)).
  { exists "5". split; [by vm_compute|by right]. }
  split; [exact Hget|]. split; [exact Hparse|]. split; [exact Hf|]. split; [exact Hty|].
  split; [exact Hsets|].
  exact (appended_option_overrides "/r" ["--epochs"; "3"] ["--epochs=5"]
           (parsed "/r" ["--epochs"; "3"]) (program_parser "/r") "--epochs"
           epochs_action (VInt 5) Hget Hparse Hf Hty Hsets).
Defined.

Lemma seed_option_decides_training_witness :
  (cli_parse "/r" ["--seed"; "42"] = Ok seeded_hparams ∧
   EmotionModel_init seeded_hparams = Ok seeded_model ∧
   (∃ seed, getattr seeded_hparams "seed" = Ok (VInt seed)) ∧
   run (main seeded_hparams) ([] : list (event Q)) = ([], Raise (NameError "random"))) ∧
  (cli_parse "/r" [] = Ok (parsed "/r" []) ∧
   EmotionModel_init (parsed "/r" []) = Ok example_model ∧
   getattr (parsed "/r" []) "seed" = Ok VNone ∧
   ∃ trainer,
     run (main (parsed "/r" [])) ([] : list (event Q))
     = match ModelCheckpoint_init (checkpoint_callback trainer) with
       | Raise e => ([], Raise e)
       | Ok _ =>
           match Trainer_init trainer with
           | Raise e => ([], Raise e)
           | Ok _ =>
               ([] ++ [trainer_fit trainer example_model],
                _ ← fit trainer example_model; Ok VNone)
           end
       end).
Proof.
  assert (Hparse : cli_parse "/r" ["--seed"; "42"] = Ok seeded_hparams) by by vm_compute.
  assert (Hinit : EmotionModel_init seeded_hparams = Ok seeded_model) by by vm_compute.
  assert (Hparse' : cli_parse "/r" [] = Ok (parsed "/r" [])) by by vm_compute.
  assert (Hinit' : EmotionModel_init (parsed "/r" []) = Ok example_model) by by vm_compute.
  split.
  - split; [exact Hparse|]. split; [exact Hinit|].
    exact (seed_option_decides_training "/r" ["--seed"; "42"] seeded_hparams
             seeded_model [] Hparse Hinit).
  - split; [exact Hparse'|]. split; [exact Hinit'|].
    exact (seed_option_decides_training "/r" [] (parsed "/r" [])
             example_model [] Hparse' Hinit').
Defined.


Lemma module_on_command_line_witness :
  let hparams := parsed "/r" [] in
  cli_parse "/r" [] = Ok hparams ∧
  EmotionModel_init hparams = Ok example_model ∧
  ∃ train_file val_file test_file max_seq_len bs,
    getattr hparams "train_file" = Ok (VStr train_file) ∧
    getattr hparams "val_file" = Ok (VStr val_file) ∧
    getattr hparams "test_file" = Ok (VStr test_file) ∧
    getattr hparams "max_seq_len" = Ok (VInt max_seq_len) ∧
    getattr hparams "bs" = Ok (VInt bs) ∧
    ∀ lazy,
      train_dataloader no_flags example_model lazy
      = data_loader "train_dataloader"
          (dataloader (VStr train_file) (VInt max_seq_len) (VInt bs)
             emo_dict_literal (self_use_ddp no_flags)) lazy ∧
      val_dataloader no_flags example_model lazy
      = data_loader "val_dataloader"
          (dataloader (VStr val_file) (VInt max_seq_len) (VInt bs)
             emo_dict_literal (self_use_ddp no_flags)) lazy ∧
      test_dataloader no_flags example_model lazy
      = data_loader "test_dataloader"
          (dataloader (VStr test_file) (VInt max_seq_len) (VInt bs)
             emo_dict_literal (self_use_ddp no_flags)) lazy.
Proof.
  intros hparams.
  assert (Hparse : cli_parse "/r" [] = Ok hparams) by by vm_compute.
  assert (Hinit : EmotionModel_init hparams = Ok example_model) by by vm_compute.
  split; [exact Hparse|]. split; [exact Hinit|].
  exact (module_on_command_line "/r" [] hparams example_model no_flags Hparse Hinit).
Defined.

Lemma main_py_in_default_mode_witness :
  (cli_parse "/r" ["--seed"; "42"] = Ok seeded_hparams ∧
   getattr seeded_hparams "mode" = Ok (VStr "default") ∧
   EmotionModel_init seeded_hparams = Ok seeded_model ∧
   run (main_py "/r" ["--seed"; "42"]) ([] : list (event Q))
   = ([], Raise (NameError "random"))) ∧
  (cli_parse "/r" [] = Ok (parsed "/r" []) ∧
   getattr (parsed "/r" []) "mode" = Ok (VStr "default") ∧
   EmotionModel_init (parsed "/r" []) = Ok example_model ∧
   ∃ trainer,
     run (main_py "/r" []) ([] : list (event Q))
     = match ModelCheckpoint_init (checkpoint_callback trainer) with
       | Raise e => ([], Raise e)
       | Ok _ =>
           match Trainer_init trainer with
           | Raise e => ([], Raise e)
           | Ok _ =>
               ([] ++ [trainer_fit trainer example_model],
                _ ← fit trainer example_model; Ok ())
           end
       end).
Proof.
  assert (Hparse : cli_parse "/r" ["--seed"; "42"] = Ok seeded_hparams) by by vm_compute.
  assert (Hmode : getattr seeded_hparams "mode" = Ok (VStr "default")) by by vm_compute.
  assert (Hinit : EmotionModel_init seeded_hparams = Ok seeded_model) by by vm_compute.
  assert (Hparse' : cli_parse "/r" [] = Ok (parsed "/r" [])) by by vm_compute.
  assert (Hmode' : getattr (parsed "/r" []) "mode" = Ok (VStr "default")) by by vm_compute.
  assert (Hinit' : EmotionModel_init (parsed "/r" []) = Ok example_model) by by vm_compute.
  split.
  - split; [exact Hparse|]. split; [exact Hmode|]. split; [exact Hinit|].
    exact (main_py_in_default_mode "/r" ["--seed"; "42"] seeded_hparams seeded_model []
             Hparse Hmode Hinit).
  - split; [exact Hparse'|]. split; [exact Hmode'|]. split; [exact Hinit'|].
    exact (main_py_in_default_mode "/r" [] (parsed "/r" []) example_model []
             Hparse' Hmode' Hinit').
Defined.

Lemma main_py_entry_point_witness :
  cli_parse "/r" readme_argv = Ok (parsed "/r" readme_argv) ∧
  getattr (parsed "/r" readme_argv) "mode" = Ok (VStr "hparams_search") ∧
  getattr (parsed "/r" readme_argv) "gpus" = Ok (VInt 2) ∧
  run (main_py "/r" readme_argv) ([] : list (event Q))
  = ([], Raise (TypeError_keyword "optimize_parallel_gpu" "nb_trials")).
Proof.
  assert (Hparse : cli_parse "/r" readme_argv = Ok (parsed "/r" readme_argv))
    by by vm_compute.
  assert (Hmode : getattr (parsed "/r" readme_argv) "mode" = Ok (VStr "hparams_search"))
    by by vm_compute.
  assert (Hgpus : getattr (parsed "/r" readme_argv) "gpus" = Ok (VInt 2))
    by by vm_compute.
  split; [exact Hparse|]. split; [exact Hmode|]. split; [exact Hgpus|].
  exact (proj2 (proj2 (main_py_entry_point (T:=Q) "/r"))
           readme_argv (parsed "/r" readme_argv) "hparams_search" 2%Z []
           Hparse Hmode Hgpus).
Defined.

Lemma add_model_specific_args_parent_witness :
  let parent := general_parser "/r" in
  NoDup (actions parent ≫= option_strings) ∧
  ∃ parser own,
    add_model_specific_args parent "/r" = Ok parser ∧
    add_model_specific_args bare_parser "/r" = Ok own ∧
    actions parser = help_action :: actions parent ++ drop 1 (actions own) ∧
    opt_args parser = opt_args own.
Proof.
  intros parent.
  assert (Hnd : NoDup (actions parent ≫= option_strings)).
  { apply (bool_decide_unpack _). by vm_compute. }
  split; [exact Hnd|].
  exact (add_model_specific_args_parent parent "/r" Hnd).
Defined.

Lemma validation_end_returns_iff_witness :
  let first := metrics_Q (1 # 2) 1 1 in
  head example_outputs = Some first ∧
  let prec_rec_f1 :=
    f1_score (metric_entry dp_flags "tp" example_outputs)
             (metric_entry dp_flags "fp" example_outputs)
             (metric_entry dp_flags "fn" example_outputs) in
  let well_formed :=
    Forall (λ output : gmap string Q, dom first ⊆ dom output) example_outputs ∧
    Forall (λ k, k ∈ dom first) ["tp"; "fp"; "fn"] ∧
    "val_loss" ∈ dom first ∪ dom prec_rec_f1 in
  ((∃ r, validation_end dp_flags example_outputs = Ok r) ↔ well_formed) ∧
  (validation_end dp_flags example_outputs = Raise KeyError ↔ ¬ well_formed).
Proof.
  intros first.
  assert (Hhead : head example_outputs = Some first) by done.
  split; [exact Hhead|].
  exact (validation_end_returns_iff dp_flags example_outputs first Hhead).
Defined.

Lemma validation_end_entries_witness :
  let first := metrics_Q (1 # 2) 1 1 in
  head example_outputs = Some first ∧
  validation_end dp_flags example_outputs = Ok dp_result ∧
  let prec_rec_f1 :=
    f1_score (metric_entry dp_flags "tp" example_outputs)
             (metric_entry dp_flags "fp" example_outputs)
             (metric_entry dp_flags "fn" example_outputs) in
  log dp_result = progress_bar dp_result ∧
  (∀ k, progress_bar dp_result !! k
        = match prec_rec_f1 !! k with
          | Some v => Some v
          | None => if decide (k ∈ dom first)
                    then Some (metric_entry dp_flags k example_outputs) else None
          end) ∧
  progress_bar dp_result !! "val_loss" = Some (val_loss dp_result).
Proof.
  intros first.
  assert (Hhead : head example_outputs = Some first) by done.
  assert (Hend : validation_end dp_flags example_outputs = Ok dp_result)
    by by vm_compute.
  split; [exact Hhead|]. split; [exact Hend|].
  exact (validation_end_entries dp_flags example_outputs first dp_result Hhead Hend).
Defined.
